(** * gowiki: the page store and the request handlers of wiki.go

    The program keeps wiki pages in one MongoDB collection and serves five
    routes.  This development embeds [wiki.go] function by function:

    - the pages of the wiki ([Page]) and the documents of the collection;
    - the driver calls the program makes ([ReplaceOne], [DeleteOne],
      [FindOne], [Find] and the cursor it returns) and the decoding of a
      document into a [Page];
    - a small monad for the handlers: they read and update the collection,
      write to the response, and may end the process ([log.Fatal]);
    - the functions of [wiki.go] themselves, under their own names;
    - the properties of the page store and of the handlers. *)

From Stdlib.Strings Require Import Ascii Byte.
From Stdlib.Strings Require String.
From Stdlib Require Import NArith ZArith.
From stdpp Require Import base option list gmap strings.

Local Open Scope N_scope.

(** ** Go values *)

(** A Go [error]: [None] is [nil], [Some msg] carries [err.Error()]. *)
Definition error := option string.

(** [[]byte(s)]: a Go string is its sequence of bytes. *)
Definition bytes_of_string (s : string) : list byte := String.list_byte_of_string s.

(** [string(b)] *)
Definition string_of_bytes (b : list byte) : string := String.string_of_list_byte b.

#[global] Instance byte_eq_decision : EqDecision byte := Byte.byte_eq_dec.

(** Page represents single wiki Page.  A nil [Body] and an empty one are both
    the empty list. *)
Record Page := mkPage { Title : string; Body : list byte }.

#[global] Instance Page_eq_decision : EqDecision Page.
Proof. solve_decision. Defined.

(** ** BSON documents *)

Module bson.

(** The kinds of value the model covers: strings, binary data (what a
    [[]byte] is written as), null, and 32-bit integers, a kind that decodes
    into neither a string nor a [[]byte]. *)
Inductive Value :=
| String (s : string)
| Binary (data : list byte)
| Null
| Int32 (n : Z).

#[global] Instance Value_eq_decision : EqDecision Value.
Proof. solve_decision. Defined.

(** [primitive.E{Key: k, Value: v}] *)
Definition E : Type := string * Value.

(** [bson.D]: an ordered document *)
Definition D : Type := list E.

(** The value of the first element named [key]. *)
Fixpoint lookup (key : string) (d : D) : option Value :=
  match d with
  | [] => None
  | (k, v) :: d' => if decide (k = key) then Some v else lookup key d'
  end.

End bson.

(** ** The collection and the driver calls *)

Module mongo.

(** A stored document: the identifier the server gave it, and its fields. *)
Record Document := mkDocument { _id : N; fields : bson.D }.

Definition Collection : Type := list Document.

(** A filter of plain [key: value] elements selects the documents that
    carry each of these values; the empty filter selects all of them. *)
Definition selects (filter : bson.D) (d : Document) : bool :=
  forallb (fun e : bson.E => bool_decide (bson.lookup e.1 (fields d) = Some e.2)) filter.
Arguments selects : simpl never.

Definition ErrNoDocuments : string := "mongo: no documents in result".

(** The documents are replaced and deleted in the order of the collection:
    the first one the filter selects is the one taken. *)
Fixpoint replace_first (filter replacement : bson.D) (c : Collection) : Collection * N :=
  match c with
  | [] => ([], 0)
  | d :: c' =>
      if selects filter d
      then ({| _id := _id d; fields := replacement |} :: c', 1)
      else let '(c'', n) := replace_first filter replacement c' in (d :: c'', n)
  end.

Fixpoint delete_first (filter : bson.D) (c : Collection) : Collection * N :=
  match c with
  | [] => ([], 0)
  | d :: c' =>
      if selects filter d then (c', 1)
      else let '(c'', n) := delete_first filter c' in (d :: c'', n)
  end.

(** [coll.ReplaceOne(ctx, filter, replacement)] with no options: at most
    one selected document is replaced and keeps its [_id]; when the filter
    selects none, nothing is written and the call succeeds with a matched
    count of 0 (the driver inserts only under [SetUpsert(true)], which
    [wiki.go] does not pass).  [fault] is the error of a call that does not
    reach the server. *)
Definition ReplaceOne (fault : error) (filter replacement : bson.D) (c : Collection)
  : Collection * (N * error) :=
  match fault with
  | Some e => (c, (0, Some e))
  | None => let '(c', n) := replace_first filter replacement c in (c', (n, None))
  end.

(** [coll.DeleteOne(ctx, filter)]: at most one selected document is
    removed; selecting none is no error. *)
Definition DeleteOne (fault : error) (filter : bson.D) (c : Collection)
  : Collection * (N * error) :=
  match fault with
  | Some e => (c, (0, Some e))
  | None => let '(c', n) := delete_first filter c in (c', (n, None))
  end.

(** [coll.FindOne(ctx, filter)]: the first selected document, or
    [ErrNoDocuments]. *)
Definition FindOne (fault : error) (filter : bson.D) (c : Collection) : Document + string :=
  match fault with
  | Some e => inr e
  | None =>
      match List.find (selects filter) c with
      | Some d => inl d
      | None => inr ErrNoDocuments
      end
  end.

(** A cursor: the documents of the batch at hand, and the batches the
    server still holds for it ([pending] is empty when the cursor id is 0). *)
Record Cursor := mkCursor {
  batch : list Document;
  pending : list (list Document)
}.

(** How the server cuts the documents of a cursor into batches.  Each entry
    of [sizes] is the number of documents that fit into the next batch: a
    batch that does not fill up is the last one, a batch that fills up
    leaves the cursor open (also when nothing is left, so that the last
    batch fetched can be empty), and when [sizes] is used up the rest comes
    in one batch. *)
Fixpoint batches (sizes : list nat) (docs : list Document) : list (list Document) :=
  match sizes with
  | [] => [docs]
  | n :: sizes' =>
      if (length docs <? n)%nat then [docs]
      else take n docs :: batches sizes' (drop n docs)
  end.

(** [coll.Find(ctx, filter)]: a cursor over the selected documents, with
    the first batch at hand. *)
Definition Find (fault : error) (filter : bson.D) (sizes : list nat) (c : Collection)
  : Cursor + string :=
  match fault with
  | Some e => inr e
  | None =>
      match batches sizes (List.filter (selects filter) c) with
      | first :: more => inl {| batch := first; pending := more |}
      | [] => inl {| batch := []; pending := [] |}
      end
  end.

(** Decoding a value into a Go [string] field, and into a [[]byte] field;
    null leaves the zero value. *)
Definition decode_string (v : bson.Value) : string + string :=
  match v with
  | bson.String s => inl s
  | bson.Binary b => inl (string_of_bytes b)
  | bson.Null => inl ""
  | bson.Int32 _ => inr "cannot decode 32-bit integer into a string type"
  end.

Definition decode_bytes (v : bson.Value) : list byte + string :=
  match v with
  | bson.String s => inl (bytes_of_string s)
  | bson.Binary b => inl b
  | bson.Null => inl []
  | bson.Int32 _ => inr "cannot decode 32-bit integer into a []byte"
  end.

(** [strings.ToLower] on the name of an element.  It is exact on ASCII and
    on the two other characters whose lower case is an ASCII letter, U+0130
    (bytes 196 176, lower case [i]) and U+212A (bytes 226 132 170, lower
    case [k]); every other byte is kept.  Go turns the remaining characters
    into characters outside ASCII, so whether the result equals an ASCII
    name is as in Go. *)
Definition lower_ascii (c : ascii) : ascii :=
  let n := N_of_ascii c in
  if (65 <=? n) && (n <=? 90) then ascii_of_N (n + 32) else c.

Fixpoint ToLower (key : string) : string :=
  match key with
  | "" => ""
  | String c rest =>
      match c, rest with
      | "196"%char, String "176"%char rest' => String "i"%char (ToLower rest')
      | "226"%char, String "132"%char (String "170"%char rest') =>
          String "k"%char (ToLower rest')
      | _, _ => String (lower_ascii c) (ToLower rest)
      end
  end.

(** The struct has no tags, so its fields go by the names [title] and
    [body]; an element is looked up by its name, and when that fails by its
    name in lower case. *)
Definition names_field (key field : string) : bool :=
  bool_decide (key = field) || bool_decide (ToLower key = field).

(** The error of a field that does not decode names the field. *)
Definition decode_error (field msg : string) : string :=
  "error decoding key " +:+ field +:+ ": " +:+ msg.

(** [Decode(&result)] for a [Page]: the elements are taken in order, each
    into the field it names; other elements are skipped and a field with no
    element keeps its zero value. *)
Fixpoint decode_fields (d : bson.D) (p : Page) : Page + string :=
  match d with
  | [] => inl p
  | (k, v) :: d' =>
      if names_field k "title" then
        match decode_string v with
        | inl s => decode_fields d' {| Title := s; Body := Body p |}
        | inr e => inr (decode_error "title" e)
        end
      else if names_field k "body" then
        match decode_bytes v with
        | inl b => decode_fields d' {| Title := Title p; Body := b |}
        | inr e => inr (decode_error "body" e)
        end
      else decode_fields d' p
  end.

Definition Decode (d : Document) : Page + string :=
  decode_fields (fields d) {| Title := ""; Body := [] |}.

End mongo.

Import mongo.

(** ** Requests, responses and the state of the server *)

(** What a handler can put on its [http.ResponseWriter]. *)
Inductive TemplateData :=
| DPage (p : Page)
| DNames (names : list string).

Inductive Event :=
| EvNotFound                                       (* http.NotFound(w, r) *)
| EvError (msg : string) (code : N)                (* http.Error(w, msg, code) *)
| EvRedirect (url : string) (code : N)             (* http.Redirect(w, r, url, code) *)
| EvTemplate (name : string) (data : TemplateData) (* templates.ExecuteTemplate(w, name, data) *).

Definition StatusFound : N := 302.
Definition StatusInternalServerError : N := 500.

(** The part of [*http.Request] the handlers read. *)
Record Request := mkRequest {
  URL_Path : string;
  Form : gmap string (list string)
}.

(** [r.FormValue(key)]: the first value of the field, [""] when there is none. *)
Definition FormValue (r : Request) (key : string) : string :=
  match Form r !! key with
  | Some (v :: _) => v
  | _ => ""
  end.

(** The globals of [wiki.go] a handler works on, and the response it writes.
    [driver] lists what the coming driver calls meet: [None] for a call that
    reaches the server, [Some e] for one that fails with [e]; when the list
    is used up every call reaches the server.  [batch_sizes] is how the
    server cuts the documents of a cursor into batches (see [batches]). *)
Record State := mkState {
  pagesCollection : Collection;
  driver : list error;
  batch_sizes : list nat;
  w : list Event
}.

(** How a piece of handler code ends: it returns, it ends the process
    ([log.Fatal], which prints and calls [os.Exit(1)]), or it panics. *)
Inductive Res (A : Type) :=
| Ret (a : A)
| Exit (msg : string)
| Panic (msg : string).
Arguments Ret {A} a.
Arguments Exit {A} msg.
Arguments Panic {A} msg.

Definition M (A : Type) : Type := State -> Res A * State.

#[global] Instance M_ret : MRet M := fun A a s => (Ret a, s).

#[global] Instance M_bind : MBind M := fun A B k m s =>
  match m s with
  | (Ret a, s') => k a s'
  | (Exit e, s') => (Exit e, s')
  | (Panic e, s') => (Panic e, s')
  end.

Definition log_Fatal {A} (e : string) : M A := fun s => (Exit e, s).

Definition panic {A} (e : string) : M A := fun s => (Panic e, s).

(** A driver call that may change the collection, and one that only reads
    it; each takes the next entry of [driver]. *)
Definition update_collection {A} (op : error -> Collection -> Collection * A) : M A :=
  fun s =>
    let '(c, a) := op (hd None (driver s)) (pagesCollection s) in
    (Ret a, {| pagesCollection := c; driver := tl (driver s);
               batch_sizes := batch_sizes s; w := w s |}).

Definition read_collection {A} (op : error -> Collection -> A) : M A :=
  update_collection (fun fault c => (c, op fault c)).

(** The driver call that opens a cursor, the one [cur.Next] makes to fetch
    the next batch when the batch at hand is used up, and the one
    [cur.Close] makes to kill a cursor the server still holds. *)
Definition open_cursor (filter : bson.D) : M (Cursor + string) :=
  fun s => read_collection (fun fault => Find fault filter (batch_sizes s)) s.

Definition getMore : M error := read_collection (fun fault _ => fault).

Definition killCursors : M error := read_collection (fun fault _ => fault).

(** [cur.Close(ctx)] for a cursor with the batches [held] on the server:
    nothing to do when the cursor id is 0. *)
Definition cur_Close (held : list (list Document)) : M error :=
  match held with
  | [] => mret None
  | _ :: _ => killCursors
  end.

Definition write (ev : Event) : M unit :=
  fun s => (Ret (), {| pagesCollection := pagesCollection s; driver := driver s;
                       batch_sizes := batch_sizes s; w := w s ++ [ev] |}).

Definition http_NotFound : M unit := write EvNotFound.
Definition http_Error (msg : string) (code : N) : M unit := write (EvError msg code).
Definition http_Redirect (url : string) (code : N) : M unit := write (EvRedirect url code).

(** ** The path pattern

    [validPath] is [^/(edit|save|view|delete)/([a-zA-Z0-9]+)$]. *)

Definition is_alnum (c : ascii) : bool :=
  let n := N_of_ascii c in
  (48 <=? n) && (n <=? 57) || (65 <=? n) && (n <=? 90) || (97 <=? n) && (n <=? 122).

(** [[a-zA-Z0-9]*] up to the end of the text *)
Fixpoint all_alnum (s : string) : bool :=
  match s with
  | EmptyString => true
  | String c s' => is_alnum c && all_alnum s'
  end.

(** [^[a-zA-Z0-9]+$] *)
Definition title_ok (s : string) : bool :=
  match s with
  | EmptyString => false
  | String _ _ => all_alnum s
  end.

(** What is left of [s] after [p], when [s] starts with [p]. *)
Fixpoint strip_prefix (p s : string) : option string :=
  match p, s with
  | EmptyString, _ => Some s
  | String a p', String b s' => if decide (a = b) then strip_prefix p' s' else None
  | String _ _, EmptyString => None
  end.

Definition actions : list string := ["edit"; "save"; "view"; "delete"].

(** The alternatives of the first group are tried from left to right; the
    one taken must be followed by [/] and a title that runs to the end. *)
Fixpoint match_action (alts : list string) (rest : string) : option (string * string) :=
  match alts with
  | [] => None
  | a :: alts' =>
      match strip_prefix (a +:+ "/") rest with
      | Some t => if title_ok t then Some (a, t) else match_action alts' rest
      | None => match_action alts' rest
      end
  end.

(** [validPath.FindStringSubmatch(path)]: [None] is the nil slice, and a
    match is the whole text followed by the two groups. *)
Definition validPath_FindStringSubmatch (path : string) : option (list string) :=
  match strip_prefix "/" path with
  | Some rest =>
      match match_action actions rest with
      | Some (a, t) => Some [path; a; t]
      | None => None
      end
  | None => None
  end.

(** ** The functions of wiki.go *)

Section Wiki.

(** The parsed templates of [Templates/]: [templates name data] is the
    error of executing template [name] on [data], [None] when it runs
    through.  The template files live outside [wiki.go], so the handlers
    are stated for any set of templates. *)
Variable templates : string -> TemplateData -> error.

Definition ExecuteTemplate (name : string) (data : TemplateData) : M error :=
  write (EvTemplate name data);; mret (templates name data).

Definition save (p : Page) : M error :=
  let filter := [("title", bson.String (Title p))] in
  '(_, err) ← update_collection (fun fault =>
    ReplaceOne fault filter
      [("title", bson.String (Title p));
       ("body", bson.Binary (Body p))]);
  mret err.

Definition deletePage (title : string) : M error :=
  let filter := [("title", bson.String title)] in
  '(_, err) ← update_collection (fun fault => DeleteOne fault filter);
  mret err.

Definition loadPage (title : string) : M (Page + string) :=
  let filter := [("title", bson.String title)] in
  found ← read_collection (fun fault => FindOne fault filter);
  let dbErr := match found with
               | inl d => Decode d
               | inr e => inr e
               end in
  match dbErr with
  | inr _ => mret (inr "Page not found")
  | inl result => mret (inl result)
  end.

(** The loop [for cur.Next(ctx)] of [listPages], in two parts.  As long as
    the batch at hand has documents, [cur.Next] hands over the next one and
    the body of the loop decodes it. *)
Fixpoint listPages_batch (docs : list Document) (names : list string) : M (list string) :=
  match docs with
  | [] => mret names
  | d :: docs' =>
      match Decode d with
      | inr e => log_Fatal e
      | inl result => listPages_batch docs' (names ++ [Title result])
      end
  end.

(** When the batch at hand is used up, [cur.Next] returns false if the
    server holds nothing more; otherwise it fetches the next batch, and
    returns false as well when that call fails: the loop then ends, and
    [listPages] never looks at [cur.Err()].  The loop hands back the names
    and the batches the server still holds when it ends. *)
Fixpoint listPages_loop (pending : list (list Document)) (names : list string)
  : M (list string * list (list Document)) :=
  match pending with
  | [] => mret (names, [])
  | docs :: pending' =>
      fault ← getMore;
      match fault with
      | Some _ => mret (names, pending)
      | None =>
          names ← listPages_batch docs names;
          listPages_loop pending' names
      end
  end.

(** [defer cur.Close(ctx)] runs when [listPages] returns, its error is
    dropped; [log.Fatal] ends the process without running it. *)
Definition listPages : M (list string * error) :=
  found ← open_cursor [];
  let names := [] in
  match found with
  | inr e => log_Fatal e
  | inl cur =>
      names ← listPages_batch (batch cur) names;
      '(names, held) ← listPages_loop (pending cur) names;
      cur_Close held;;
      mret (names, None)
  end.

Definition getTitle (r : Request) : M (string * error) :=
  match validPath_FindStringSubmatch (URL_Path r) with
  | None => http_NotFound;; mret ("", Some "invalid Page Title")
  | Some m =>
      match m !! 2%nat with
      | Some title => mret (title, None)
      | None => panic "index out of range"
      end
  end.

Definition renderPageTemplate (tmpl : string) (p : Page) : M unit :=
  err ← ExecuteTemplate (tmpl +:+ ".html") (DPage p);
  match err with
  | Some e => http_Error e StatusInternalServerError
  | None => mret ()
  end.

Definition viewHandler (r : Request) (title : string) : M unit :=
  loaded ← loadPage title;
  match loaded with
  | inr _ => http_Redirect ("/edit/" +:+ title) StatusFound
  | inl p => renderPageTemplate "view" p
  end.

Definition listHandler (r : Request) : M unit :=
  '(pages, err) ← listPages;
  match err with
  | Some _ => http_Redirect "/list" StatusFound
  | None =>
      err ← ExecuteTemplate "list.html" (DNames pages);
      match err with
      | Some e => http_Error e StatusInternalServerError
      | None => mret ()
      end
  end.

Definition editHandler (r : Request) (title : string) : M unit :=
  loaded ← loadPage title;
  let p := match loaded with
           | inr _ => {| Title := title; Body := [] |}
           | inl p => p
           end in
  renderPageTemplate "edit" p.

Definition saveHandler (r : Request) (title : string) : M unit :=
  let body := FormValue r "body" in
  let p := {| Title := title; Body := bytes_of_string body |} in
  err ← save p;
  match err with
  | Some e => http_Error e StatusInternalServerError
  | None => http_Redirect ("/view/" +:+ title) StatusFound
  end.

Definition deleteHandler (r : Request) (title : string) : M unit :=
  err ← deletePage title;
  match err with
  | Some e => http_Error e StatusInternalServerError
  | None => http_Redirect "/list" StatusFound
  end.

Definition makeHandler (fn : Request -> string -> M unit) (r : Request) : M unit :=
  match validPath_FindStringSubmatch (URL_Path r) with
  | None => http_NotFound
  | Some m =>
      match m !! 2%nat with
      | Some title => fn r title
      | None => panic "index out of range"
      end
  end.

End Wiki.

(** ** Vocabulary of the properties *)

(** The filter of [save], [deletePage] and [loadPage], and the document
    [save] writes. *)
Definition title_filter (title : string) : bson.D := [("title", bson.String title)].

Definition page_fields (p : Page) : bson.D :=
  [("title", bson.String (Title p)); ("body", bson.Binary (Body p))].

(** The title a document is filed under, when it has one. *)
Definition title_of (d : Document) : option string :=
  match bson.lookup "title" (fields d) with
  | Some (bson.String t) => Some t
  | _ => None
  end.

(** The data model keeps one document per title. *)
Definition unique_titles (c : Collection) : Prop := NoDup (omap title_of c).

#[global] Instance unique_titles_dec (c : Collection) : Decision (unique_titles c).
Proof. unfold unique_titles. apply _. Defined.

(** The state after one driver call that left the collection as [c], and
    the state after [evs] were written to the response. *)
Definition after_call (s : State) (c : Collection) : State :=
  {| pagesCollection := c; driver := tl (driver s);
     batch_sizes := batch_sizes s; w := w s |}.

Definition responded (s : State) (evs : list Event) : State :=
  {| pagesCollection := pagesCollection s; driver := driver s;
     batch_sizes := batch_sizes s; w := w s ++ evs |}.

(** What one execution of a template puts on the response: the output of
    the template, and the report of its error when it has one. *)
Definition rendering (templates : string -> TemplateData -> error)
    (name : string) (data : TemplateData) : list Event :=
  EvTemplate name data ::
  match templates name data with
  | Some e => [EvError e StatusInternalServerError]
  | None => []
  end.

(** The state [s] with the driver calls [dr] left to come. *)
Definition with_driver (s : State) (dr : list error) : State :=
  {| pagesCollection := pagesCollection s; driver := dr;
     batch_sizes := batch_sizes s; w := w s |}.

(** Every coming driver call reaches the server. *)
Definition server_reachable (s : State) : Prop :=
  Forall (λ o : error, o = None) (driver s).

#[global] Instance server_reachable_dec (s : State) : Decision (server_reachable s).
Proof. unfold server_reachable. apply _. Defined.

(** What the loop of [listPages] gets out of a run of documents: the titles
    added to [names], or the error of the first document that does not
    decode. *)
Fixpoint decode_titles (docs : list Document) (names : list string) : list string + string :=
  match docs with
  | [] => inl names
  | d :: docs' =>
      match Decode d with
      | inr e => inr e
      | inl p => decode_titles docs' (names ++ [Title p])
      end
  end.

(** Sample data: templates that always run through, an empty store, and a
    store with two pages. *)
Definition sound_templates : string -> TemplateData -> error := fun _ _ => None.

Definition empty_state : State :=
  {| pagesCollection := []; driver := []; batch_sizes := []; w := [] |}.

Definition doc_Foo : Document :=
  {| _id := 7;
     fields := [("title", bson.String "Foo");
                ("body", bson.Binary (bytes_of_string "old text"));
                ("author", bson.String "someone")] |}.

Definition doc_Bar : Document :=
  {| _id := 8;
     fields := [("title", bson.String "Bar"); ("body", bson.Binary [])] |}.

Definition stocked_state : State :=
  {| pagesCollection := [doc_Bar; doc_Foo]; driver := []; batch_sizes := []; w := [] |}.

(** The store with two pages at a moment when the server cannot be reached. *)
Definition failing_state : State :=
  {| pagesCollection := [doc_Bar; doc_Foo]; driver := [Some "connection refused"];
     batch_sizes := []; w := [] |}.

(** The store with two pages when the server hands out one document per
    batch and the second driver call, the fetch of the second batch, fails. *)
Definition batched_state : State :=
  {| pagesCollection := [doc_Bar; doc_Foo]; driver := [None; Some "connection reset"];
     batch_sizes := [1%nat]; w := [] |}.

(** A document that is filed under a title but whose body is a number, and
    a store that holds it between the two pages. *)
Definition doc_Odd : Document :=
  {| _id := 9; fields := [("title", bson.String "Odd"); ("body", bson.Int32 5)] |}.

Definition odd_state : State :=
  {| pagesCollection := [doc_Bar; doc_Odd; doc_Foo]; driver := []; batch_sizes := []; w := [] |}.

(** The characters of [[a-zA-Z0-9]], written out. *)
Definition alnum_chars : list ascii :=
  String.list_ascii_of_string "abcdefghijklmnopqrstuvwxyzABCDEFGHIJKLMNOPQRSTUVWXYZ0123456789".

(** ** The definitions at work *)

Example validPath_view : validPath_FindStringSubmatch "/view/Foo" = Some ["/view/Foo"; "view"; "Foo"].
Proof. reflexivity. Qed.

Example validPath_delete : validPath_FindStringSubmatch "/delete/a1Z" = Some ["/delete/a1Z"; "delete"; "a1Z"].
Proof. reflexivity. Qed.

Example validPath_slash : validPath_FindStringSubmatch "/view/Foo/bar" = None.
Proof. reflexivity. Qed.

Example validPath_space : validPath_FindStringSubmatch "/edit/Foo bar" = None.
Proof. reflexivity. Qed.

Example validPath_no_title : validPath_FindStringSubmatch "/save/" = None.
Proof. reflexivity. Qed.

Example validPath_list : validPath_FindStringSubmatch "/list" = None.
Proof. reflexivity. Qed.

Example FormValue_first :
  FormValue (mkRequest "/save/Foo" {[ "body" := ["one"; "two"] ]}) "body" = "one".
Proof. reflexivity. Qed.

Example Decode_doc_Foo :
  Decode doc_Foo = inl {| Title := "Foo"; Body := bytes_of_string "old text" |}.
Proof. reflexivity. Qed.

Example Decode_number :
  Decode {| _id := 9; fields := [("title", bson.Int32 5)] |}
  = inr "error decoding key title: cannot decode 32-bit integer into a string type".
Proof. reflexivity. Qed.

Example Decode_upper_case_name :
  Decode {| _id := 9; fields := [("Title", bson.String "Zed")] |}
  = inl {| Title := "Zed"; Body := [] |}.
Proof. reflexivity. Qed.

Example ToLower_mixed : ToLower "TiTLe" = "title" ∧ ToLower "Body_9" = "body_9".
Proof. split; reflexivity. Qed.

Example ToLower_dotted_I :
  ToLower (String "t" (String "196" (String "176" "tle"))) = "title".
Proof. reflexivity. Qed.

Example Decode_null :
  Decode {| _id := 9; fields := [("title", bson.String "Zed"); ("body", bson.Null)] |}
  = inl {| Title := "Zed"; Body := [] |}.
Proof. reflexivity. Qed.

Example Decode_other_name :
  Decode {| _id := 9; fields := [("titles", bson.Int32 5); ("body", bson.String "x")] |}
  = inl {| Title := ""; Body := bytes_of_string "x" |}.
Proof. reflexivity. Qed.

Example batches_two :
  batches [1%nat] [doc_Bar; doc_Foo] = [[doc_Bar]; [doc_Foo]].
Proof. reflexivity. Qed.

Example batches_exact_fit :
  batches [2%nat] [doc_Bar; doc_Foo] = [[doc_Bar; doc_Foo]; []].
Proof. reflexivity. Qed.

Example batches_default :
  batches [101%nat] [doc_Bar; doc_Foo] = [[doc_Bar; doc_Foo]].
Proof. reflexivity. Qed.

Example save_stocked :
  pagesCollection (save {| Title := "Foo"; Body := bytes_of_string "new" |} stocked_state).2
  = [doc_Bar;
     {| _id := 7;
        fields := [("title", bson.String "Foo"); ("body", bson.Binary (bytes_of_string "new"))] |}].
Proof. reflexivity. Qed.

Example list_stocked :
  listHandler sound_templates (mkRequest "/list" ∅) stocked_state
  = (Ret (), responded (after_call stocked_state [doc_Bar; doc_Foo])
               [EvTemplate "list.html" (DNames ["Bar"; "Foo"])]).
Proof. reflexivity. Qed.

(** ** The path pattern: what it accepts *)

Lemma append_String (a : ascii) (s t : string) : String a s +:+ t = String a (s +:+ t).
Proof. reflexivity. Qed.

Lemma append_assoc (s t u : string) : (s +:+ t) +:+ u = s +:+ t +:+ u.
Proof.
  induction s as [|a s IH]; [done|].
  by rewrite !append_String, IH.
Qed.

Lemma strip_prefix_app (p t : string) : strip_prefix p (p +:+ t) = Some t.
Proof.
  induction p as [|a p IH]; [done|].
  rewrite append_String. simpl. by rewrite decide_True.
Qed.

Lemma strip_prefix_Some (p s t : string) : strip_prefix p s = Some t → s = p +:+ t.
Proof.
  revert s; induction p as [|a p IH]; intros s; simpl.
  - by intros [= ->].
  - destruct s as [|b s]; [done|].
    case_decide; [|done]. subst b. intros H.
    by rewrite (IH _ H), append_String.
Qed.

(** The four alternatives followed by [/] exclude one another, so a path
    built on one of them is matched on exactly that one. *)
Lemma match_action_app (a t : string) :
  a ∈ actions →
  match_action actions (a +:+ "/" +:+ t) = if title_ok t then Some (a, t) else None.
Proof.
  unfold actions. intros Ha.
  repeat (apply elem_of_cons in Ha as [->|Ha]); [..|by apply elem_of_nil in Ha];
    by cbv -[title_ok].
Qed.

Lemma match_action_Some (alts : list string) (rest a t : string) :
  match_action alts rest = Some (a, t) →
  a ∈ alts ∧ title_ok t = true ∧ rest = a +:+ "/" +:+ t.
Proof.
  induction alts as [|b alts IH]; simpl; [done|].
  destruct (strip_prefix (b +:+ "/") rest) as [t'|] eqn:Hp.
  - destruct (title_ok t') eqn:Hok.
    + intros [= <- <-]. split; [apply elem_of_cons; by left|]. split; [done|].
      apply strip_prefix_Some in Hp. by rewrite Hp, append_assoc.
    + intros H. destruct (IH H) as (?&?&?). split; [apply elem_of_cons; by right|done].
  - intros H. destruct (IH H) as (?&?&?). split; [apply elem_of_cons; by right|done].
Qed.

Lemma validPath_accepts (a t : string) :
  a ∈ actions → title_ok t = true →
  validPath_FindStringSubmatch ("/" +:+ a +:+ "/" +:+ t)
  = Some ["/" +:+ a +:+ "/" +:+ t; a; t].
Proof.
  intros Ha Ht. unfold validPath_FindStringSubmatch.
  rewrite strip_prefix_app, match_action_app, Ht; done.
Qed.

Lemma validPath_rejects (a rest : string) :
  a ∈ actions → title_ok rest = false →
  validPath_FindStringSubmatch ("/" +:+ a +:+ "/" +:+ rest) = None.
Proof.
  intros Ha Ht. unfold validPath_FindStringSubmatch.
  rewrite strip_prefix_app, match_action_app, Ht; done.
Qed.

(** Every match has the shape the pattern describes. *)
Lemma validPath_matches (path : string) (m : list string) :
  validPath_FindStringSubmatch path = Some m →
  ∃ a t, a ∈ actions ∧ title_ok t = true ∧
         path = "/" +:+ a +:+ "/" +:+ t ∧ m = [path; a; t].
Proof.
  unfold validPath_FindStringSubmatch.
  destruct (strip_prefix "/" path) as [rest|] eqn:Hp; [|done].
  destruct (match_action actions rest) as [[a t]|] eqn:Hm; [|done].
  intros [= <-]. exists a, t.
  apply match_action_Some in Hm as (Ha & Ht & ->).
  apply strip_prefix_Some in Hp. done.
Qed.

(** A title with a [/] or a space in it is not a title. *)
Lemma title_ok_alnum (s1 s2 : string) (c : ascii) :
  is_alnum c = false → title_ok (s1 +:+ String c s2) = false.
Proof.
  intros Hc.
  assert (all_alnum (s1 +:+ String c s2) = false) as Hall.
  { induction s1 as [|b s1 IH]; [by simpl; rewrite Hc|].
    rewrite append_String. simpl. by rewrite IH, andb_false_r. }
  destruct s1 as [|b s1]; [done|]. by rewrite append_String in *.
Qed.

(** ** The collection *)

Lemma selects_title (t : string) (d : Document) :
  selects (title_filter t) d = true ↔ title_of d = Some t.
Proof.
  unfold selects, title_filter, title_of. simpl. rewrite andb_true_r.
  rewrite bool_decide_eq_true.
  destruct (bson.lookup "title" (fields d)) as [[]|]; naive_solver.
Qed.

Lemma selects_page_fields (p : Page) (i : N) :
  selects (title_filter (Title p)) {| _id := i; fields := page_fields p |} = true.
Proof. by apply selects_title. Qed.

Lemma Decode_page_fields (p : Page) (i : N) :
  Decode {| _id := i; fields := page_fields p |} = inl p.
Proof. by destruct p. Qed.

Lemma replace_first_found (f r : bson.D) (c : Collection) (d : Document) :
  List.find (selects f) c = Some d →
  ∃ before after,
    c = before ++ d :: after ∧
    Forall (λ x, selects f x = false) before ∧
    replace_first f r c = (before ++ {| _id := _id d; fields := r |} :: after, 1).
Proof.
  induction c as [|x c IH]; simpl; [done|].
  destruct (selects f x) eqn:Hx.
  - intros [= ->]. by exists [], c.
  - intros H. destruct (IH H) as (before & after & -> & Hb & ->).
    exists (x :: before), after. split; [done|]. split; [by constructor|done].
Qed.

Lemma replace_first_absent (f r : bson.D) (c : Collection) :
  List.find (selects f) c = None → replace_first f r c = (c, 0).
Proof.
  induction c as [|x c IH]; simpl; [done|].
  destruct (selects f x); [done|]. intros H. by rewrite (IH H).
Qed.

Lemma find_skip (f : bson.D) (before rest : Collection) :
  Forall (λ x, selects f x = false) before →
  List.find (selects f) (before ++ rest) = List.find (selects f) rest.
Proof.
  induction 1 as [|x before Hx _ IH]; simpl; [done|]. by rewrite Hx.
Qed.

Lemma delete_first_found (f : bson.D) (c : Collection) (d : Document) :
  List.find (selects f) c = Some d →
  ∃ before after,
    c = before ++ d :: after ∧
    Forall (λ x, selects f x = false) before ∧
    delete_first f c = (before ++ after, 1).
Proof.
  induction c as [|x c IH]; simpl; [done|].
  destruct (selects f x) eqn:Hx.
  - intros [= ->]. by exists [], c.
  - intros H. destruct (IH H) as (before & after & -> & Hb & ->).
    exists (x :: before), after. split; [done|]. split; [by constructor|done].
Qed.

Lemma delete_first_absent (f : bson.D) (c : Collection) :
  List.find (selects f) c = None → delete_first f c = (c, 0).
Proof.
  induction c as [|x c IH]; simpl; [done|].
  destruct (selects f x); [done|]. intros H. by rewrite (IH H).
Qed.

Lemma find_title_None (t : string) (c : Collection) :
  List.find (selects (title_filter t)) c = None ↔ t ∉ omap title_of c.
Proof.
  induction c as [|x c IH]; simpl.
  - split; [intros _; apply not_elem_of_nil|done].
  - destruct (selects (title_filter t) x) eqn:Hx.
    + apply selects_title in Hx. rewrite Hx. split; [done|].
      intros []. apply elem_of_cons. by left.
    + assert (title_of x ≠ Some t) as Hne.
      { intros H. apply selects_title in H. congruence. }
      rewrite IH. destruct (title_of x) as [t'|]; [|done].
      rewrite not_elem_of_cons. split; [|by intros [_ ?]].
      intros ?. split; [congruence|done].
Qed.

(** With one document per title, the title whose document was deleted
    selects nothing any more. *)
Lemma find_delete_first (t : string) (c : Collection) :
  unique_titles c →
  List.find (selects (title_filter t)) (delete_first (title_filter t) c).1 = None.
Proof.
  unfold unique_titles.
  induction c as [|x c IH]; simpl; [done|]. intros Hu.
  destruct (selects (title_filter t) x) eqn:Hx; simpl.
  - apply selects_title in Hx. rewrite Hx in Hu.
    apply NoDup_cons in Hu as [Hnotin _]. by apply find_title_None.
  - destruct (delete_first (title_filter t) c) as [c' n] eqn:Hd. simpl in *.
    rewrite Hx. apply IH.
    destruct (title_of x); [by apply NoDup_cons in Hu as [_ ?]|done].
Qed.

(** Replacing and deleting keep one document per title. *)
Lemma replace_first_titles (p : Page) (c : Collection) :
  omap title_of (replace_first (title_filter (Title p)) (page_fields p) c).1
  = omap title_of c.
Proof.
  induction c as [|x c IH]; simpl; [done|].
  destruct (selects (title_filter (Title p)) x) eqn:Hx; simpl.
  - apply selects_title in Hx. by rewrite Hx.
  - destruct (replace_first _ _ c) as [c' n]. simpl in *.
    destruct (title_of x); [f_equal|]; exact IH.
Qed.

Lemma delete_first_titles (f : bson.D) (c : Collection) :
  omap title_of (delete_first f c).1 `sublist_of` omap title_of c.
Proof.
  induction c as [|x c IH]; simpl; [done|].
  destruct (selects f x) eqn:Hx; simpl.
  - destruct (title_of x); [by apply sublist_cons|done].
  - destruct (delete_first f c) as [c' n]. simpl in *.
    destruct (title_of x); [by apply sublist_skip|done].
Qed.

(** ** Running the page store *)

Lemma save_run (p : Page) (s : State) :
  save p s =
  (Ret (hd None (driver s)),
   after_call s
     match hd None (driver s) with
     | Some _ => pagesCollection s
     | None => (replace_first (title_filter (Title p)) (page_fields p) (pagesCollection s)).1
     end).
Proof.
  unfold save, update_collection, ReplaceOne, after_call, mbind, M_bind, mret, M_ret.
  destruct (hd None (driver s)); [done|].
  fold (title_filter (Title p)) (page_fields p).
  by destruct (replace_first _ _ _).
Qed.

Lemma deletePage_run (title : string) (s : State) :
  deletePage title s =
  (Ret (hd None (driver s)),
   after_call s
     match hd None (driver s) with
     | Some _ => pagesCollection s
     | None => (delete_first (title_filter title) (pagesCollection s)).1
     end).
Proof.
  unfold deletePage, update_collection, DeleteOne, after_call, mbind, M_bind, mret, M_ret.
  destruct (hd None (driver s)); [done|].
  fold (title_filter title).
  by destruct (delete_first _ _).
Qed.

Lemma loadPage_run (title : string) (s : State) :
  loadPage title s =
  (Ret match FindOne (hd None (driver s)) (title_filter title) (pagesCollection s) with
       | inl d => match Decode d with
                  | inl p => inl p
                  | inr _ => inr "Page not found"
                  end
       | inr _ => inr "Page not found"
       end,
   after_call s (pagesCollection s)).
Proof.
  unfold loadPage, read_collection, update_collection, after_call, mbind, M_bind, mret, M_ret.
  fold (title_filter title).
  destruct (FindOne _ _ _) as [d|e]; [|done]. by destruct (Decode d).
Qed.

(** A title that selects no document is not found, whatever the driver
    call meets. *)
Lemma loadPage_absent (title : string) (s : State) :
  List.find (selects (title_filter title)) (pagesCollection s) = None →
  loadPage title s = (Ret (inr "Page not found"), after_call s (pagesCollection s)).
Proof.
  intros Hf. rewrite loadPage_run. unfold FindOne. rewrite Hf.
  by destruct (hd None (driver s)).
Qed.

(** A load that fails to reach the server reports the page as not found. *)
Lemma loadPage_fault (title e : string) (s : State) :
  hd None (driver s) = Some e →
  loadPage title s = (Ret (inr "Page not found"), after_call s (pagesCollection s)).
Proof. intros Hd. rewrite loadPage_run. unfold FindOne. by rewrite Hd. Qed.

(** [save] and [deletePage] keep one document per title. *)
Lemma save_unique_titles (p : Page) (s : State) :
  unique_titles (pagesCollection s) → unique_titles (pagesCollection (save p s).2).
Proof.
  rewrite save_run. simpl. destruct (hd None (driver s)); [done|].
  unfold unique_titles. by rewrite replace_first_titles.
Qed.

Lemma deletePage_unique_titles (title : string) (s : State) :
  unique_titles (pagesCollection s) → unique_titles (pagesCollection (deletePage title s).2).
Proof.
  rewrite deletePage_run. simpl. destruct (hd None (driver s)); [done|].
  unfold unique_titles. intros Hu. eapply sublist_NoDup; [exact Hu|apply delete_first_titles].
Qed.

(** A save of a title that selects no document succeeds and leaves the
    collection as it was. *)
Lemma save_absent (p : Page) (s : State) :
  hd None (driver s) = None →
  List.find (selects (title_filter (Title p))) (pagesCollection s) = None →
  save p s = (Ret None, after_call s (pagesCollection s)).
Proof.
  intros Hd Hf. rewrite save_run, Hd. by rewrite replace_first_absent.
Qed.

(** ** The page store: claims *)

(** C1 (the code departs from it): a save is to create the document when the
    title has none.  On the empty collection, saving page [Foo] with body
    [hello] returns a nil error, and the collection is still empty: the
    [ReplaceOne] of [save] carries no upsert option. *)
Theorem save_on_empty_collection_stores_nothing :
  save {| Title := "Foo"; Body := bytes_of_string "hello" |} empty_state
  = (Ret None, empty_state)
  ∧ pagesCollection empty_state = [].
Proof. split; reflexivity. Qed.

(** C2 (the code departs from it): a successful save followed by a load is to
    give back the saved body.  On the empty collection the save of [Foo]
    succeeds and the load that follows reports the page as not found. *)
Theorem save_then_load_on_empty_collection :
  (save {| Title := "Foo"; Body := bytes_of_string "hello" |} empty_state).1 = Ret None
  ∧
  (loadPage "Foo"
     (save {| Title := "Foo"; Body := bytes_of_string "hello" |} empty_state).2).1
  = Ret (inr "Page not found").
Proof.
  rewrite save_absent by reflexivity. split; [reflexivity|].
  by rewrite loadPage_absent.
Qed.

(** C3: when the title already has a document, a successful save puts the
    fields of the new page in its place: the document keeps its place and
    its identifier, its fields are exactly the title and the new body
    whatever they were before, every other document is left alone, and a
    load that reaches the server returns the page just saved. *)
Theorem save_replaces_whole_document (p : Page) (s s' : State) (d : Document) :
  List.find (selects (title_filter (Title p))) (pagesCollection s) = Some d →
  save p s = (Ret None, s') →
  (∃ before after,
      pagesCollection s = before ++ d :: after ∧
      Forall (λ x, selects (title_filter (Title p)) x = false) before ∧
      pagesCollection s' = before ++ {| _id := _id d; fields := page_fields p |} :: after) ∧
  (hd None (driver s') = None → (loadPage (Title p) s').1 = Ret (inl p)).
Proof.
  intros Hf. rewrite save_run. intros [= Hd <-]. rewrite Hd. simpl.
  destruct (replace_first_found _ (page_fields p) _ _ Hf)
    as (before & after & Hc & Hb & Hr).
  rewrite Hr. simpl. split; [by exists before, after|].
  intros Hd'. rewrite loadPage_run. simpl in *. rewrite Hd'.
  unfold FindOne. rewrite find_skip by done. simpl.
  by rewrite selects_page_fields, Decode_page_fields.
Qed.

Lemma save_replaces_whole_document_witness :
  (loadPage "Foo" (save {| Title := "Foo"; Body := bytes_of_string "new" |} stocked_state).2).1
  = Ret (inl {| Title := "Foo"; Body := bytes_of_string "new" |}).
Proof.
  refine (proj2 (save_replaces_whole_document
                   {| Title := "Foo"; Body := bytes_of_string "new" |}
                   stocked_state _ doc_Foo _ _) _);
    reflexivity.
Defined.

(** C4: with one document per title, after a successful delete of a title a
    load of that title returns the not-found error and no page. *)
Theorem delete_then_load_not_found (title : string) (s s' : State) :
  unique_titles (pagesCollection s) →
  deletePage title s = (Ret None, s') →
  (loadPage title s').1 = Ret (inr "Page not found").
Proof.
  intros Hu. rewrite deletePage_run. intros [= Hd <-].
  rewrite loadPage_absent; [done|].
  simpl. rewrite Hd. by apply find_delete_first.
Qed.

Lemma delete_then_load_not_found_witness :
  unique_titles (pagesCollection stocked_state) ∧
  (loadPage "Foo" (deletePage "Foo" stocked_state).2).1 = Ret (inr "Page not found").
Proof.
  assert (unique_titles (pagesCollection stocked_state)) as Hu
    by (apply (bool_decide_unpack _); vm_compute; exact I).
  split; [exact Hu|].
  apply (delete_then_load_not_found "Foo" stocked_state _ Hu). reflexivity.
Defined.

(** ** Running the handlers *)

Lemma renderPageTemplate_run templates (tmpl : string) (p : Page) (s : State) :
  renderPageTemplate templates tmpl p s
  = (Ret (), responded s (rendering templates (tmpl +:+ ".html") (DPage p))).
Proof.
  unfold renderPageTemplate, ExecuteTemplate, rendering, http_Error, write, responded,
    mbind, M_bind, mret, M_ret. simpl.
  destruct (templates _ _); simpl; [|done]. by rewrite <- app_assoc.
Qed.

Lemma viewHandler_run templates (r : Request) (title : string) (s : State) :
  viewHandler templates r title s =
  match (loadPage title s).1 with
  | Ret (inl p) =>
      (Ret (), responded (after_call s (pagesCollection s))
                 (rendering templates "view.html" (DPage p)))
  | _ =>
      (Ret (), responded (after_call s (pagesCollection s))
                 [EvRedirect ("/edit/" +:+ title) StatusFound])
  end.
Proof.
  unfold viewHandler, mbind, M_bind. rewrite loadPage_run. simpl.
  destruct (FindOne _ _ _) as [d|e]; [destruct (Decode d)|]; try done.
  by rewrite renderPageTemplate_run.
Qed.

Lemma editHandler_run templates (r : Request) (title : string) (s : State) :
  editHandler templates r title s =
  (Ret (), responded (after_call s (pagesCollection s))
             (rendering templates "edit.html"
                (DPage match (loadPage title s).1 with
                       | Ret (inl p) => p
                       | _ => {| Title := title; Body := [] |}
                       end))).
Proof.
  unfold editHandler, mbind, M_bind. rewrite loadPage_run. simpl.
  rewrite renderPageTemplate_run.
  by destruct (FindOne _ _ _) as [d|e]; [destruct (Decode d)|].
Qed.

Lemma saveHandler_run (r : Request) (title : string) (s : State) :
  saveHandler r title s =
  let p := {| Title := title; Body := bytes_of_string (FormValue r "body") |} in
  (Ret (), responded (save p s).2
             match hd None (driver s) with
             | Some e => [EvError e StatusInternalServerError]
             | None => [EvRedirect ("/view/" +:+ title) StatusFound]
             end).
Proof.
  unfold saveHandler, mbind, M_bind. rewrite save_run. simpl.
  by destruct (hd None (driver s)).
Qed.

Lemma deleteHandler_run (r : Request) (title : string) (s : State) :
  deleteHandler r title s =
  (Ret (), responded (deletePage title s).2
             match hd None (driver s) with
             | Some e => [EvError e StatusInternalServerError]
             | None => [EvRedirect "/list" StatusFound]
             end).
Proof.
  unfold deleteHandler, mbind, M_bind. rewrite deletePage_run. simpl.
  by destruct (hd None (driver s)).
Qed.

(** On a path the pattern accepts the wrapped handler runs on the title. *)
Lemma makeHandler_valid (fn : Request → string → M unit) (r : Request) (a title : string) :
  a ∈ actions → title_ok title = true →
  URL_Path r = "/" +:+ a +:+ "/" +:+ title →
  makeHandler fn r = fn r title.
Proof.
  intros Ha Ht Hp. unfold makeHandler. by rewrite Hp, validPath_accepts.
Qed.

(** On any other path it answers not-found: [fn] is not run, no driver
    call is made and the collection is not touched. *)
Lemma makeHandler_invalid (fn : Request → string → M unit) (r : Request) (s : State) :
  validPath_FindStringSubmatch (URL_Path r) = None →
  makeHandler fn r s = (Ret (), responded s [EvNotFound]).
Proof. intros Hp. unfold makeHandler. by rewrite Hp. Qed.

(** The loop over a run of documents leaves the state alone. *)
Lemma listPages_batch_run (docs : list Document) (names : list string) (s : State) :
  listPages_batch docs names s
  = (match decode_titles docs names with
     | inl names' => Ret names'
     | inr e => Exit e
     end, s).
Proof.
  revert names; induction docs as [|d docs IH]; intros names; simpl; [done|].
  destruct (Decode d) as [p|e]; [apply IH|done].
Qed.

Lemma getMore_run (s : State) :
  getMore s = (Ret (hd None (driver s)), with_driver s (tl (driver s))).
Proof. reflexivity. Qed.

Lemma cur_Close_run (held : list (list Document)) (s : State) :
  ∃ dr err, cur_Close held s = (Ret err, with_driver s dr).
Proof.
  destruct held; simpl.
  - exists (driver s), None. by destruct s.
  - by eexists _, _.
Qed.

(** The rest of the loop uses up driver calls and nothing else; it returns
    or ends the process. *)
Lemma listPages_loop_run (pending : list (list Document)) (names : list string) (s : State) :
  ∃ dr, (∃ res, listPages_loop pending names s = (Ret res, with_driver s dr)) ∨
        (∃ e, listPages_loop pending names s = (Exit e, with_driver s dr)).
Proof.
  revert names s; induction pending as [|docs pending IH]; intros names s; simpl.
  - exists (driver s). left. eexists. by destruct s.
  - unfold mbind, M_bind. rewrite getMore_run.
    destruct (hd None (driver s)) as [e|].
    + exists (tl (driver s)). left. by eexists.
    + rewrite listPages_batch_run.
      destruct (decode_titles docs names) as [names'|e].
      * destruct (IH names' (with_driver s (tl (driver s)))) as [dr H]. by exists dr.
      * exists (tl (driver s)). right. by exists e.
Qed.

Lemma open_cursor_run (filter : bson.D) (s : State) :
  open_cursor filter s
  = (Ret (Find (hd None (driver s)) filter (batch_sizes s) (pagesCollection s)),
     with_driver s (tl (driver s))).
Proof. reflexivity. Qed.

(** How [listPages] ends once the loop has: the cursor is closed and the
    names are returned with a nil error. *)
Lemma listPages_end (cur : Cursor) (s s1 : State) (names names1 : list string)
    (held : list (list Document)) :
  Find (hd None (driver s)) [] (batch_sizes s) (pagesCollection s) = inl cur →
  decode_titles (batch cur) [] = inl names →
  listPages_loop (pending cur) names (with_driver s (tl (driver s)))
  = (Ret (names1, held), s1) →
  ∃ dr, listPages s = (Ret (names1, None), with_driver s1 dr).
Proof.
  intros Hf Hb Hl. unfold listPages, mbind, M_bind.
  rewrite open_cursor_run, Hf, listPages_batch_run, Hb, Hl.
  destruct (cur_Close_run held s1) as (dr & err & ->). by exists dr.
Qed.

(** [listPages] never returns an error: what it gives back is [names, nil],
    or else the process has ended; it uses up driver calls and changes
    nothing else. *)
Lemma listPages_run (s : State) :
  ∃ dr, (∃ names, listPages s = (Ret (names, None), with_driver s dr)) ∨
        (∃ e, listPages s = (Exit e, with_driver s dr)).
Proof.
  destruct (Find (hd None (driver s)) [] (batch_sizes s) (pagesCollection s))
    as [cur|e] eqn:Hf.
  - destruct (decode_titles (batch cur) []) as [names|e] eqn:Hb.
    + destruct (listPages_loop_run (pending cur) names (with_driver s (tl (driver s))))
        as [dr [[[names1 held] H]|[e H]]].
      * destruct (listPages_end _ _ _ _ _ _ Hf Hb H) as [dr' H'].
        exists dr'. left. by exists names1.
      * exists dr. right. exists e. unfold listPages, mbind, M_bind.
        by rewrite open_cursor_run, Hf, listPages_batch_run, Hb, H.
    + exists (tl (driver s)). right. exists e. unfold listPages, mbind, M_bind.
      by rewrite open_cursor_run, Hf, listPages_batch_run, Hb.
  - exists (tl (driver s)). right. exists e. unfold listPages, mbind, M_bind.
    by rewrite open_cursor_run, Hf.
Qed.

Lemma listPages_error_nil (s s' : State) (names : list string) (err : error) :
  listPages s = (Ret (names, err), s') → err = None.
Proof.
  destruct (listPages_run s) as [dr [[names' H]|[e H]]]; rewrite H; [|done].
  by intros [= _ <- _].
Qed.

(** What [listHandler] makes of the two ways [listPages] ends. *)
Lemma listHandler_run templates (r : Request) (s s1 : State) (names : list string) :
  listPages s = (Ret (names, None), s1) →
  listHandler templates r s
  = (Ret (), responded s1 (rendering templates "list.html" (DNames names))).
Proof.
  intros Hl. unfold listHandler, mbind, M_bind. rewrite Hl.
  unfold ExecuteTemplate, rendering, http_Error, write, responded, mbind, M_bind, mret, M_ret.
  simpl. destruct (templates _ _); simpl; [|done]. by rewrite <- app_assoc.
Qed.

Lemma listHandler_exit templates (r : Request) (s s1 : State) (e : string) :
  listPages s = (Exit e, s1) → listHandler templates r s = (Exit e, s1).
Proof. intros Hl. unfold listHandler, mbind, M_bind. by rewrite Hl. Qed.

(** The batches of a cursor are its documents, in order. *)
Lemma batches_concat (sizes : list nat) (docs : list Document) :
  concat (batches sizes docs) = docs.
Proof.
  revert docs; induction sizes as [|n sizes IH]; intros docs; simpl.
  - apply app_nil_r.
  - destruct (length docs <? n)%nat; simpl; [apply app_nil_r|].
    by rewrite IH, take_drop.
Qed.

Lemma filter_selects_all (c : Collection) : List.filter (selects []) c = c.
Proof. induction c as [|x c IH]; simpl; [done|]. by rewrite IH. Qed.

(** The cursor [listPages] opens holds the whole collection. *)
Lemma Find_all (sizes : list nat) (c : Collection) :
  ∃ cur, Find None [] sizes c = inl cur ∧ batch cur ++ concat (pending cur) = c.
Proof.
  unfold Find. rewrite filter_selects_all.
  pose proof (batches_concat sizes c) as Hc.
  destruct (batches sizes c) as [|first more]; simpl in *; eauto.
Qed.

Lemma listPages_loop_nothing (pending : list (list Document)) (names : list string)
    (s : State) :
  concat pending = [] →
  ∃ dr held, listPages_loop pending names s = (Ret (names, held), with_driver s dr).
Proof.
  revert s; induction pending as [|docs pending IH]; intros s; simpl.
  - intros _. exists (driver s), []. by destruct s.
  - intros [-> Hp]%app_eq_nil. unfold mbind, M_bind. rewrite getMore_run.
    destruct (hd None (driver s)); [by eexists _, _|].
    rewrite listPages_batch_run. simpl.
    destruct (IH (with_driver s (tl (driver s))) Hp) as (dr & held & H). by exists dr, held.
Qed.

Lemma listPages_empty (s : State) :
  pagesCollection s = [] → hd None (driver s) = None →
  ∃ dr, listPages s = (Ret ([], None), with_driver s dr).
Proof.
  intros Hc Hd.
  destruct (Find_all (batch_sizes s) (pagesCollection s)) as (cur & Hf & Hcur).
  rewrite Hc in Hcur. apply app_eq_nil in Hcur as [Hb Hp].
  destruct (listPages_loop_nothing (pending cur) [] (with_driver s (tl (driver s))) Hp)
    as (dr & held & H).
  rewrite <- Hd in Hf.
  destruct (listPages_end cur s _ [] [] held Hf ltac:(by rewrite Hb) H) as [dr' H'].
  by exists dr'.
Qed.

(** With no page in the store the list template is run on the empty
    sequence of titles. *)
Lemma listHandler_empty templates (r : Request) (s : State) :
  pagesCollection s = [] → hd None (driver s) = None →
  ∃ dr, listHandler templates r s
        = (Ret (), responded (with_driver s dr)
                     (rendering templates "list.html" (DNames []))).
Proof.
  intros Hc Hd. destruct (listPages_empty s Hc Hd) as [dr H].
  exists dr. by apply listHandler_run.
Qed.

(** A failing [Find] ends the process before anything is written. *)
Lemma listHandler_fault templates (r : Request) (s : State) (e : string) :
  hd None (driver s) = Some e →
  listHandler templates r s = (Exit e, after_call s (pagesCollection s)).
Proof.
  intros Hd. apply listHandler_exit.
  unfold listPages, mbind, M_bind. rewrite open_cursor_run. unfold Find. by rewrite Hd.
Qed.

(** ** The handlers: claims *)

(** C5: on [/view/<title>] with a valid title, when the title selects no
    document the response is the redirect to [/edit/<title>] and nothing
    else (the view template is not run); when the load succeeds with a page,
    the view template is run on that page. *)
Theorem view_redirects_or_renders (templates : string → TemplateData → error)
    (title : string) (r : Request) (s : State) :
  title_ok title = true →
  URL_Path r = "/view/" +:+ title →
  (List.find (selects (title_filter title)) (pagesCollection s) = None →
   makeHandler (viewHandler templates) r s
   = (Ret (), responded (after_call s (pagesCollection s))
                [EvRedirect ("/edit/" +:+ title) StatusFound]))
  ∧
  (∀ p, (loadPage title s).1 = Ret (inl p) →
   makeHandler (viewHandler templates) r s
   = (Ret (), responded (after_call s (pagesCollection s))
                (rendering templates "view.html" (DPage p)))).
Proof.
  intros Ht Hp.
  rewrite (makeHandler_valid _ r "view" title) by (done || by repeat constructor).
  rewrite viewHandler_run. split.
  - intros Hf. by rewrite loadPage_absent.
  - intros p Hl. by rewrite Hl.
Qed.

Lemma view_redirects_or_renders_witness :
  makeHandler (viewHandler sound_templates) (mkRequest "/view/Foo" ∅) empty_state
  = (Ret (), responded (after_call empty_state []) [EvRedirect "/edit/Foo" StatusFound])
  ∧
  makeHandler (viewHandler sound_templates) (mkRequest "/view/Foo" ∅) stocked_state
  = (Ret (), responded (after_call stocked_state [doc_Bar; doc_Foo])
               [EvTemplate "view.html"
                  (DPage {| Title := "Foo"; Body := bytes_of_string "old text" |})]).
Proof.
  split.
  - apply (view_redirects_or_renders sound_templates "Foo" (mkRequest "/view/Foo" ∅) empty_state);
      reflexivity.
  - apply (view_redirects_or_renders sound_templates "Foo" (mkRequest "/view/Foo" ∅) stocked_state);
      reflexivity.
Defined.

(** C6: on [/edit/<title>] with a valid title that selects no document, the
    handler returns after running the edit template on the page with that
    title and an empty body; the missing page is no error, and when the
    template runs through nothing else is written: no error response. *)
Theorem edit_missing_page_blank_form (templates : string → TemplateData → error)
    (title : string) (r : Request) (s : State) :
  title_ok title = true →
  URL_Path r = "/edit/" +:+ title →
  List.find (selects (title_filter title)) (pagesCollection s) = None →
  makeHandler (editHandler templates) r s
  = (Ret (), responded (after_call s (pagesCollection s))
               (rendering templates "edit.html" (DPage {| Title := title; Body := [] |})))
  ∧
  (templates "edit.html" (DPage {| Title := title; Body := [] |}) = None →
   makeHandler (editHandler templates) r s
   = (Ret (), responded (after_call s (pagesCollection s))
                [EvTemplate "edit.html" (DPage {| Title := title; Body := [] |})])).
Proof.
  intros Ht Hp Hf.
  rewrite (makeHandler_valid _ r "edit" title) by (done || by repeat constructor).
  rewrite editHandler_run, loadPage_absent by done.
  split; [done|]. intros Hx. unfold rendering. simpl. by rewrite Hx.
Qed.

Lemma edit_missing_page_blank_form_witness :
  makeHandler (editHandler sound_templates) (mkRequest "/edit/Baz" ∅) stocked_state
  = (Ret (), responded (after_call stocked_state [doc_Bar; doc_Foo])
               [EvTemplate "edit.html" (DPage {| Title := "Baz"; Body := [] |})]).
Proof.
  refine (proj2 (edit_missing_page_blank_form sound_templates "Baz"
                   (mkRequest "/edit/Baz" ∅) stocked_state _ _ _) _);
    reflexivity.
Defined.

(** C7: on a path under [/view/], [/edit/], [/save/] or [/delete/] whose
    title part is not one or more letters and digits, every wrapped handler
    answers not-found and nothing else happens: the answer is the same for
    every [fn], so [fn] is not run, no driver call is made and the
    collection is unchanged. *)
Theorem invalid_title_not_found (fn : Request → string → M unit)
    (a rest : string) (r : Request) (s : State) :
  a ∈ actions →
  title_ok rest = false →
  URL_Path r = "/" +:+ a +:+ "/" +:+ rest →
  makeHandler fn r s = (Ret (), responded s [EvNotFound]).
Proof.
  intros Ha Ht Hp. apply makeHandler_invalid. rewrite Hp. by apply validPath_rejects.
Qed.

Lemma invalid_title_not_found_witness :
  title_ok "Foo/bar" = false ∧ title_ok "two words" = false ∧
  makeHandler saveHandler (mkRequest "/save/Foo/bar" ∅) stocked_state
  = (Ret (), responded stocked_state [EvNotFound]) ∧
  makeHandler deleteHandler (mkRequest "/delete/two words" ∅) stocked_state
  = (Ret (), responded stocked_state [EvNotFound]).
Proof.
  split; [reflexivity|]. split; [reflexivity|]. split.
  - apply (invalid_title_not_found saveHandler "save" "Foo/bar"); [|reflexivity..].
    by repeat constructor.
  - apply (invalid_title_not_found deleteHandler "delete" "two words"); [|reflexivity..].
    by repeat constructor.
Defined.

(** C8 as stated fails: with the server out of reach, the view of a stored
    page answers with the redirect to the edit path, not with a 500. *)
Lemma view_storage_failure_is_no_500 :
  hd None (driver failing_state) = Some "connection refused" ∧
  w (makeHandler (viewHandler sound_templates) (mkRequest "/view/Foo" ∅) failing_state).2
  = [EvRedirect "/edit/Foo" StatusFound] ∧
  w (makeHandler (viewHandler sound_templates) (mkRequest "/view/Foo" ∅) failing_state).2
  ≠ [EvError "connection refused" StatusInternalServerError].
Proof. split; [reflexivity|]. split; [reflexivity|]. discriminate. Qed.

(** C8, amended: when the driver call of the request fails with error [e],
    the save and the delete handler answer with a 500 that carries [e],
    write nothing else and leave the collection as it was; the view handler
    answers with the redirect to the edit path and the edit handler runs the
    edit template on the blank page, as for a page that is not there. *)
Theorem storage_failure_responses (templates : string → TemplateData → error)
    (r : Request) (title e : string) (s : State) :
  hd None (driver s) = Some e →
  saveHandler r title s
  = (Ret (), responded (after_call s (pagesCollection s))
               [EvError e StatusInternalServerError]) ∧
  deleteHandler r title s
  = (Ret (), responded (after_call s (pagesCollection s))
               [EvError e StatusInternalServerError]) ∧
  viewHandler templates r title s
  = (Ret (), responded (after_call s (pagesCollection s))
               [EvRedirect ("/edit/" +:+ title) StatusFound]) ∧
  editHandler templates r title s
  = (Ret (), responded (after_call s (pagesCollection s))
               (rendering templates "edit.html" (DPage {| Title := title; Body := [] |}))).
Proof.
  intros Hd. repeat split.
  - rewrite saveHandler_run. simpl. by rewrite save_run, Hd.
  - rewrite deleteHandler_run. by rewrite deletePage_run, Hd.
  - rewrite viewHandler_run. by rewrite (loadPage_fault _ e).
  - rewrite editHandler_run. by rewrite (loadPage_fault _ e).
Qed.

Lemma storage_failure_responses_witness :
  saveHandler (mkRequest "/save/Foo" {[ "body" := ["new text"] ]}) "Foo" failing_state
  = (Ret (), responded (after_call failing_state [doc_Bar; doc_Foo])
               [EvError "connection refused" StatusInternalServerError]).
Proof.
  refine (proj1 (storage_failure_responses sound_templates _ "Foo" "connection refused"
                   failing_state _)).
  reflexivity.
Defined.

(** C9 (the code departs from it): a failing fetch of the titles is to be
    answered with a redirect to [/list].  With the server out of reach
    [listPages] ends the process ([log.Fatal]) and nothing is written to the
    response; the redirect of [listHandler] is never reached. *)
Theorem list_storage_failure_ends_process :
  listHandler sound_templates (mkRequest "/list" ∅) failing_state
  = (Exit "connection refused", after_call failing_state [doc_Bar; doc_Foo])
  ∧ w (listHandler sound_templates (mkRequest "/list" ∅) failing_state).2 = [].
Proof. split; reflexivity. Qed.

(** C10 (the code departs from it): a save request without a [body] field
    is to store the page with an empty body.  On the store with the pages
    [Bar] and [Foo], the request [/save/Baz] with no [body] field is
    answered with the redirect to [/view/Baz], the collection is as it was,
    and the load of [Baz] that follows reports the page as not found: the
    field is read as the empty string and the save returns nil, but the
    [ReplaceOne] of [save] stores nothing for a title without a document. *)
Theorem save_without_body_stores_nothing_for_new_title :
  title_ok "Baz" = true
  ∧ Form (mkRequest "/save/Baz" {[ "summary" := ["typo"] ]}) !! "body" = None
  ∧ makeHandler saveHandler (mkRequest "/save/Baz" {[ "summary" := ["typo"] ]}) stocked_state
    = (Ret (), responded (after_call stocked_state [doc_Bar; doc_Foo])
                 [EvRedirect "/view/Baz" StatusFound])
  ∧ (loadPage "Baz"
       (makeHandler saveHandler (mkRequest "/save/Baz" {[ "summary" := ["typo"] ]})
          stocked_state).2).1
    = Ret (inr "Page not found").
Proof.
  split; [reflexivity|]. split; [by vm_compute|].
  rewrite (makeHandler_valid _ _ "save" "Baz") by (done || by repeat constructor).
  rewrite saveHandler_run. cbv zeta.
  rewrite save_absent by reflexivity.
  split; [reflexivity|]. by rewrite loadPage_absent.
Qed.

(** On [/save/<title>] with a valid title and a form without a [body]
    field, the handler saves the page with that title and the empty body;
    when that save returns nil the response is the redirect to
    [/view/<title>] and nothing else, and a document the title had now
    holds the empty body. *)
Theorem save_without_body_field (title : string) (r : Request) (s : State) :
  title_ok title = true →
  URL_Path r = "/save/" +:+ title →
  Form r !! "body" = None →
  (save {| Title := title; Body := [] |} s).1 = Ret None →
  makeHandler saveHandler r s
  = (Ret (), responded (save {| Title := title; Body := [] |} s).2
               [EvRedirect ("/view/" +:+ title) StatusFound])
  ∧
  (∀ d, List.find (selects (title_filter title)) (pagesCollection s) = Some d →
        List.find (selects (title_filter title))
          (pagesCollection (makeHandler saveHandler r s).2)
        = Some {| _id := _id d; fields := page_fields {| Title := title; Body := [] |} |}).
Proof.
  intros Ht Hp Hb Hs.
  rewrite (makeHandler_valid _ r "save" title) by (done || by repeat constructor).
  rewrite saveHandler_run. unfold FormValue. rewrite Hb.
  change (bytes_of_string "") with (@nil byte). cbv zeta.
  rewrite save_run in Hs |- *. simpl in Hs. injection Hs as Hd. rewrite Hd.
  split; [done|]. intros d Hf. simpl.
  destruct (replace_first_found _ (page_fields {| Title := title; Body := [] |}) _ _ Hf)
    as (before & after & Hc & Hbefore & Hr).
  rewrite Hr. simpl. rewrite find_skip by done. simpl.
  by rewrite (selects_page_fields {| Title := title; Body := [] |}).
Qed.

Lemma save_without_body_field_witness :
  Form (mkRequest "/save/Foo" {[ "summary" := ["typo"] ]}) !! "body" = None ∧
  makeHandler saveHandler (mkRequest "/save/Foo" {[ "summary" := ["typo"] ]}) stocked_state
  = (Ret (), responded (save {| Title := "Foo"; Body := [] |} stocked_state).2
               [EvRedirect "/view/Foo" StatusFound]).
Proof.
  assert (Form (mkRequest "/save/Foo" {[ "summary" := ["typo"] ]}) !! "body" = None) as Hb
    by (vm_compute; reflexivity).
  split; [exact Hb|].
  refine (proj1 (save_without_body_field "Foo" _ stocked_state _ _ Hb _)); reflexivity.
Defined.

(** * Further properties of wiki.go *)

(** ** Routing: [validPath], [getTitle] and [makeHandler] *)

(** The pattern accepts exactly the paths [/<action>/<title>] with one of
    the four actions and a title of one or more letters and digits, and the
    match it returns is the path, the action and the title. *)
Theorem validPath_exactly (path : string) (m : list string) :
  validPath_FindStringSubmatch path = Some m ↔
  ∃ a t, a ∈ actions ∧ title_ok t = true ∧
         path = "/" +:+ a +:+ "/" +:+ t ∧ m = [path; a; t].
Proof.
  split; [apply validPath_matches|].
  intros (a & t & Ha & Ht & -> & ->). by apply validPath_accepts.
Qed.

Lemma is_alnum_chars (c : ascii) : is_alnum c = bool_decide (c ∈ alnum_chars).
Proof. by destruct c as [[] [] [] [] [] [] [] []]; vm_compute. Qed.

(** A title is accepted exactly when it is not empty and each of its
    characters is one of the 62 ASCII letters and digits. *)
Theorem title_ok_exactly (t : string) :
  title_ok t = true ↔
  t ≠ "" ∧ Forall (λ c, c ∈ alnum_chars) (String.list_ascii_of_string t).
Proof.
  assert (∀ u, all_alnum u = true ↔
               Forall (λ c, c ∈ alnum_chars) (String.list_ascii_of_string u)) as Hall.
  { induction u as [|c u IH]; simpl.
    - split; [constructor|done].
    - by rewrite andb_true_iff, IH, Forall_cons, is_alnum_chars, bool_decide_eq_true. }
  destruct t as [|c t]; [by split; [|intros []]|].
  unfold title_ok. rewrite Hall. split; [by split|by intros []].
Qed.

(** A wrapped handler either answers not-found, with [fn] left out, or runs
    [fn] on the title part of a well-formed path; the index into the match
    is always in range, so it never panics on its own. *)
Theorem makeHandler_dispatch (fn : Request → string → M unit) (r : Request) (s : State) :
  (validPath_FindStringSubmatch (URL_Path r) = None ∧
   makeHandler fn r s = (Ret (), responded s [EvNotFound]))
  ∨
  (∃ a t, a ∈ actions ∧ title_ok t = true ∧
          URL_Path r = "/" +:+ a +:+ "/" +:+ t ∧
          makeHandler fn r s = fn r t s).
Proof.
  unfold makeHandler.
  destruct (validPath_FindStringSubmatch (URL_Path r)) as [m|] eqn:Hm.
  - right. apply validPath_matches in Hm as (a & t & Ha & Ht & Hp & ->).
    by exists a, t.
  - by left.
Qed.

(** [makeHandler] does what [getTitle] followed by the handler would do:
    the same answer on a bad path, the same title handed to [fn] on a good
    one. *)
Theorem makeHandler_getTitle (fn : Request → string → M unit) (r : Request) (s : State) :
  makeHandler fn r s
  = ('(title, err) ← getTitle r;
     match err with
     | Some _ => mret ()
     | None => fn r title
     end) s.
Proof.
  unfold makeHandler, getTitle, mbind, M_bind.
  destruct (validPath_FindStringSubmatch (URL_Path r)) as [m|]; [|done].
  by destruct (m !! 2%nat).
Qed.

(** [getTitle] returns a nil error exactly on the paths the pattern accepts;
    it then returns the title part and writes nothing, and on every other
    path it writes the 404 and returns the empty title with its error. *)
Theorem getTitle_result (r : Request) (s : State) :
  (∃ a t, a ∈ actions ∧ title_ok t = true ∧
          URL_Path r = "/" +:+ a +:+ "/" +:+ t ∧
          getTitle r s = (Ret (t, None), s))
  ∨
  ((∀ a t, a ∈ actions → title_ok t = true → URL_Path r ≠ "/" +:+ a +:+ "/" +:+ t) ∧
   getTitle r s = (Ret ("", Some "invalid Page Title"), responded s [EvNotFound])).
Proof.
  unfold getTitle.
  destruct (validPath_FindStringSubmatch (URL_Path r)) as [m|] eqn:Hm.
  - left. apply validPath_matches in Hm as (a & t & Ha & Ht & Hp & ->).
    by exists a, t.
  - right. split; [|done]. intros a t Ha Ht Hp.
    rewrite Hp, validPath_accepts in Hm; done.
Qed.

(** ** The page store: [save], [deletePage], [loadPage] *)

Lemma selects_other_title (t t' : string) (d : Document) :
  title_of d = Some t → t ≠ t' → selects (title_filter t') d = false.
Proof.
  intros Hd Hne. destruct (selects (title_filter t') d) eqn:Hs; [|done].
  apply selects_title in Hs. congruence.
Qed.

Lemma find_replace_first_other (p : Page) (t' : string) (c : Collection) :
  Title p ≠ t' →
  List.find (selects (title_filter t'))
    (replace_first (title_filter (Title p)) (page_fields p) c).1
  = List.find (selects (title_filter t')) c.
Proof.
  intros Hne. induction c as [|x c IH]; simpl; [done|].
  destruct (selects (title_filter (Title p)) x) eqn:Hx; simpl.
  - apply selects_title in Hx.
    by rewrite !(selects_other_title (Title p) t').
  - destruct (replace_first _ _ c) as [c' n]. simpl in *. by rewrite IH.
Qed.

Lemma find_delete_first_other (t t' : string) (c : Collection) :
  t ≠ t' →
  List.find (selects (title_filter t')) (delete_first (title_filter t) c).1
  = List.find (selects (title_filter t')) c.
Proof.
  intros Hne. induction c as [|x c IH]; simpl; [done|].
  destruct (selects (title_filter t) x) eqn:Hx; simpl.
  - apply selects_title in Hx. by rewrite (selects_other_title t t').
  - destruct (delete_first _ c) as [c' n]. simpl in *. by rewrite IH.
Qed.

Lemma replace_first_twice (f r1 r2 : bson.D) (c : Collection) :
  (∀ i, selects f {| _id := i; fields := r1 |} = true) →
  (replace_first f r2 (replace_first f r1 c).1).1 = (replace_first f r2 c).1.
Proof.
  intros Hr. induction c as [|x c IH]; simpl; [done|].
  destruct (selects f x) eqn:Hx; simpl.
  - by rewrite Hr.
  - destruct (replace_first f r1 c) as [c1 n1]. simpl in *. rewrite Hx.
    destruct (replace_first f r2 c1) as [c2 n2].
    destruct (replace_first f r2 c) as [c3 n3]. simpl in *. by rewrite IH.
Qed.

(** The collection a load of [title] sees decides its answer together with
    the outcome of the driver call. *)
Lemma loadPage_found (title : string) (s : State) (d : Document) (p : Page) :
  hd None (driver s) = None →
  List.find (selects (title_filter title)) (pagesCollection s) = Some d →
  Decode d = inl p →
  loadPage title s = (Ret (inl p), after_call s (pagesCollection s)).
Proof.
  intros Hd Hf Hp. rewrite loadPage_run. unfold FindOne. by rewrite Hd, Hf, Hp.
Qed.

Lemma loadPage_same_find (title : string) (s s' : State) :
  hd None (driver s) = hd None (driver s') →
  List.find (selects (title_filter title)) (pagesCollection s)
  = List.find (selects (title_filter title)) (pagesCollection s') →
  (loadPage title s).1 = (loadPage title s').1.
Proof.
  intros Hd Hf. rewrite !loadPage_run. unfold FindOne. simpl. by rewrite Hd, Hf.
Qed.

(** Saving or deleting one title leaves every other title as it was: the
    document a load of another title finds, and so the answer of that load,
    is the same as if the collection had not been touched. *)
Theorem other_titles_untouched (p : Page) (title t' : string) (s : State) :
  Title p ≠ t' → title ≠ t' →
  (loadPage t' (save p s).2).1 = (loadPage t' (after_call s (pagesCollection s))).1 ∧
  (loadPage t' (deletePage title s).2).1 = (loadPage t' (after_call s (pagesCollection s))).1.
Proof.
  intros Hp Ht. split; apply loadPage_same_find.
  - by rewrite save_run.
  - rewrite save_run. simpl. destruct (hd None (driver s)); [done|].
    by apply find_replace_first_other.
  - by rewrite deletePage_run.
  - rewrite deletePage_run. simpl. destruct (hd None (driver s)); [done|].
    by apply find_delete_first_other.
Qed.

Lemma other_titles_untouched_witness :
  (loadPage "Bar" (save {| Title := "Foo"; Body := bytes_of_string "new" |} stocked_state).2).1
  = Ret (inl {| Title := "Bar"; Body := [] |}) ∧
  (loadPage "Bar" (deletePage "Foo" stocked_state).2).1
  = Ret (inl {| Title := "Bar"; Body := [] |}).
Proof.
  destruct (other_titles_untouched {| Title := "Foo"; Body := bytes_of_string "new" |}
              "Foo" "Bar" stocked_state) as [H1 H2]; [discriminate..|].
  split; [rewrite H1|rewrite H2]; reflexivity.
Defined.

(** The last save wins: of two saves of the same title that both reach the
    server, the first leaves no trace; in particular saving the same page
    twice is the same as saving it once. *)
Theorem last_save_wins (p1 p2 : Page) (s : State) :
  Title p1 = Title p2 →
  hd None (driver s) = None →
  hd None (tl (driver s)) = None →
  pagesCollection (save p2 (save p1 s).2).2 = pagesCollection (save p2 s).2.
Proof.
  intros Ht Hd1 Hd2. rewrite !save_run. simpl. rewrite Hd1, Hd2.
  rewrite <- Ht. apply replace_first_twice.
  intros i. apply selects_page_fields.
Qed.

Lemma last_save_wins_witness :
  pagesCollection
    (save {| Title := "Foo"; Body := bytes_of_string "second" |}
       (save {| Title := "Foo"; Body := bytes_of_string "first" |} stocked_state).2).2
  = pagesCollection (save {| Title := "Foo"; Body := bytes_of_string "second" |} stocked_state).2.
Proof.
  apply (last_save_wins {| Title := "Foo"; Body := bytes_of_string "first" |}
           {| Title := "Foo"; Body := bytes_of_string "second" |} stocked_state);
    reflexivity.
Defined.

(** A delete that reaches the server takes out the first document filed
    under the title and nothing else; every other document stays, in its
    place. *)
Theorem deletePage_removes_one (title : string) (s : State) (d : Document) :
  hd None (driver s) = None →
  List.find (selects (title_filter title)) (pagesCollection s) = Some d →
  ∃ before after,
    pagesCollection s = before ++ d :: after ∧
    Forall (λ x, selects (title_filter title) x = false) before ∧
    deletePage title s = (Ret None, after_call s (before ++ after)).
Proof.
  intros Hd Hf. rewrite deletePage_run, Hd.
  destruct (delete_first_found _ _ _ Hf) as (before & after & Hc & Hb & Hdel).
  exists before, after. by rewrite Hdel.
Qed.

Lemma deletePage_removes_one_witness :
  ∃ before after,
    pagesCollection stocked_state = before ++ doc_Foo :: after ∧
    Forall (λ x, selects (title_filter "Foo") x = false) before ∧
    deletePage "Foo" stocked_state = (Ret None, after_call stocked_state (before ++ after)).
Proof.
  apply (deletePage_removes_one "Foo" stocked_state doc_Foo); reflexivity.
Defined.

(** Deleting a title that has no document is no error: the call returns
    nil, the collection is as it was, and the delete handler answers with
    the redirect to [/list] all the same. *)
Theorem delete_missing_title (title : string) (r : Request) (s : State) :
  hd None (driver s) = None →
  List.find (selects (title_filter title)) (pagesCollection s) = None →
  deletePage title s = (Ret None, after_call s (pagesCollection s)) ∧
  deleteHandler r title s
  = (Ret (), responded (after_call s (pagesCollection s)) [EvRedirect "/list" StatusFound]).
Proof.
  intros Hd Hf.
  assert (deletePage title s = (Ret None, after_call s (pagesCollection s))) as Hdel.
  { rewrite deletePage_run, Hd. by rewrite delete_first_absent. }
  split; [done|]. rewrite deleteHandler_run, Hdel, Hd. done.
Qed.

Lemma delete_missing_title_witness :
  deleteHandler (mkRequest "/delete/Baz" ∅) "Baz" stocked_state
  = (Ret (), responded (after_call stocked_state [doc_Bar; doc_Foo])
               [EvRedirect "/list" StatusFound]).
Proof.
  refine (proj2 (delete_missing_title "Baz" (mkRequest "/delete/Baz" ∅) stocked_state _ _));
    reflexivity.
Defined.

(** A document that is found but does not decode into a [Page] is reported
    like a missing page: the error of the load is "Page not found". *)
Theorem loadPage_undecodable (title e : string) (s : State) (d : Document) :
  List.find (selects (title_filter title)) (pagesCollection s) = Some d →
  Decode d = inr e →
  loadPage title s = (Ret (inr "Page not found"), after_call s (pagesCollection s)).
Proof.
  intros Hf He. rewrite loadPage_run. unfold FindOne. rewrite Hf.
  destruct (hd None (driver s)); [done|]. by rewrite He.
Qed.

Lemma loadPage_undecodable_witness :
  loadPage "Odd" odd_state
  = (Ret (inr "Page not found"), after_call odd_state [doc_Bar; doc_Odd; doc_Foo]).
Proof.
  apply (loadPage_undecodable "Odd"
           "error decoding key body: cannot decode 32-bit integer into a []byte"
           odd_state doc_Odd); reflexivity.
Defined.

(** ** The handlers *)

Lemma decode_titles_app (docs1 docs2 : list Document) (names : list string) :
  decode_titles (docs1 ++ docs2) names
  = match decode_titles docs1 names with
    | inl names' => decode_titles docs2 names'
    | inr e => inr e
    end.
Proof.
  revert names; induction docs1 as [|d docs1 IH]; intros names; simpl; [done|].
  destruct (Decode d); [apply IH|done].
Qed.

Lemma decode_titles_decodes (docs : list Document) (ps : list Page) (names : list string) :
  Forall2 (λ d p, Decode d = inl p) docs ps →
  decode_titles docs names = inl (names ++ map Title ps).
Proof.
  intros H. revert names.
  induction H as [|d p docs ps Hd _ IH]; intros names; simpl.
  - by rewrite app_nil_r.
  - rewrite Hd, IH. by rewrite <- app_assoc.
Qed.

Lemma decode_titles_fails (good rest : list Document) (ps : list Page) (d : Document)
    (e : string) (names : list string) :
  Forall2 (λ d p, Decode d = inl p) good ps →
  Decode d = inr e →
  decode_titles (good ++ d :: rest) names = inr e.
Proof.
  intros H He. rewrite decode_titles_app, (decode_titles_decodes good ps) by done.
  simpl. by rewrite He.
Qed.

Lemma server_reachable_next (s : State) :
  server_reachable s →
  hd None (driver s) = None ∧ server_reachable (with_driver s (tl (driver s))).
Proof.
  unfold server_reachable. simpl. destruct (driver s) as [|o dr]; simpl; [done|].
  intros [-> H]%Forall_cons. done.
Qed.

(** When no driver call fails, the batches make no difference: the loop
    goes through the documents the server holds, in order, and leaves
    nothing on the server. *)
Lemma listPages_loop_reachable (pending : list (list Document)) (names : list string)
    (s : State) :
  server_reachable s →
  ∃ dr, listPages_loop pending names s
        = (match decode_titles (concat pending) names with
           | inl names' => Ret (names', [])
           | inr e => Exit e
           end, with_driver s dr).
Proof.
  revert names s; induction pending as [|docs pending IH]; intros names s Hs; simpl.
  - exists (driver s). by destruct s.
  - destruct (server_reachable_next s Hs) as [Hd Hs'].
    unfold mbind, M_bind. rewrite getMore_run, Hd, listPages_batch_run, decode_titles_app.
    destruct (decode_titles docs names) as [names'|e]; [|by eexists].
    destruct (IH names' _ Hs') as [dr H]. by exists dr.
Qed.

Lemma listPages_reachable (s : State) :
  server_reachable s →
  ∃ dr, listPages s
        = (match decode_titles (pagesCollection s) [] with
           | inl names => Ret (names, None)
           | inr e => Exit e
           end, with_driver s dr).
Proof.
  intros Hs. destruct (server_reachable_next s Hs) as [Hd Hs'].
  destruct (Find_all (batch_sizes s) (pagesCollection s)) as (cur & Hf & Hcur).
  rewrite <- Hd in Hf. rewrite <- Hcur, decode_titles_app.
  destruct (listPages_loop_reachable (pending cur)
              (match decode_titles (batch cur) [] with inl n => n | inr _ => [] end)
              _ Hs') as [dr H].
  destruct (decode_titles (batch cur) []) as [names|e] eqn:Hb.
  - destruct (decode_titles (concat (pending cur)) names) as [names1|e].
    + destruct (listPages_end _ _ _ _ _ _ Hf Hb H) as [dr' H']. by exists dr'.
    + exists dr. unfold listPages, mbind, M_bind.
      by rewrite open_cursor_run, Hf, listPages_batch_run, Hb, H.
  - exists (tl (driver s)). unfold listPages, mbind, M_bind.
    by rewrite open_cursor_run, Hf, listPages_batch_run, Hb.
Qed.

(** The list page shows the titles in the order of the collection: when
    every driver call of the request reaches the server and every document
    decodes, [listPages] returns the titles of the decoded pages, first
    document first, however the server cuts the documents into batches, and
    the list template is run on them. *)
Theorem list_titles_in_order (templates : string → TemplateData → error)
    (r : Request) (s : State) (ps : list Page) :
  server_reachable s →
  Forall2 (λ d p, Decode d = inl p) (pagesCollection s) ps →
  ∃ dr,
    listPages s = (Ret (map Title ps, None), with_driver s dr) ∧
    listHandler templates r s
    = (Ret (), responded (with_driver s dr)
                 (rendering templates "list.html" (DNames (map Title ps)))).
Proof.
  intros Hs Hps. destruct (listPages_reachable s Hs) as [dr Hl].
  rewrite (decode_titles_decodes _ ps) in Hl by done. simpl in Hl.
  exists dr. split; [done|]. by apply listHandler_run.
Qed.

Lemma list_titles_in_order_witness :
  ∃ dr,
    listPages stocked_state = (Ret (["Bar"; "Foo"], None), with_driver stocked_state dr) ∧
    listHandler sound_templates (mkRequest "/list" ∅) stocked_state
    = (Ret (), responded (with_driver stocked_state dr)
                 (rendering sound_templates "list.html" (DNames ["Bar"; "Foo"]))).
Proof.
  apply (list_titles_in_order sound_templates (mkRequest "/list" ∅) stocked_state
           [ {| Title := "Bar"; Body := [] |};
             {| Title := "Foo"; Body := bytes_of_string "old text" |} ]).
  - apply (bool_decide_unpack _). vm_compute. exact I.
  - by repeat constructor.
Defined.

(** One document that does not decode takes the server down on [/list]:
    when every driver call of the request reaches the server, the process
    ends with the decoding error of the first such document and nothing is
    written to the response. *)
Theorem list_undecodable_document_ends_process (templates : string → TemplateData → error)
    (r : Request) (s : State) (good rest : list Document) (ps : list Page)
    (d : Document) (e : string) :
  server_reachable s →
  pagesCollection s = good ++ d :: rest →
  Forall2 (λ d p, Decode d = inl p) good ps →
  Decode d = inr e →
  ∃ dr, listHandler templates r s = (Exit e, with_driver s dr).
Proof.
  intros Hs Hc Hps He. destruct (listPages_reachable s Hs) as [dr Hl].
  rewrite Hc, (decode_titles_fails good rest ps d e) in Hl by done.
  exists dr. by apply listHandler_exit.
Qed.

Lemma list_undecodable_document_ends_process_witness :
  ∃ dr, listHandler sound_templates (mkRequest "/list" ∅) odd_state
        = (Exit "error decoding key body: cannot decode 32-bit integer into a []byte",
           with_driver odd_state dr).
Proof.
  apply (list_undecodable_document_ends_process sound_templates (mkRequest "/list" ∅)
           odd_state [doc_Bar] [doc_Foo] [ {| Title := "Bar"; Body := [] |} ] doc_Odd).
  - apply (bool_decide_unpack _). vm_compute. exact I.
  - reflexivity.
  - by repeat constructor.
  - reflexivity.
Defined.

(** A failed fetch cuts the list short without a word: when the server
    holds a further batch and the call that fetches it fails, [listPages]
    returns the titles of the first batch with a nil error, and the list
    template is run on this incomplete list. *)
Theorem list_truncated_by_failed_fetch (templates : string → TemplateData → error)
    (r : Request) (s : State) (first : list Document) (more : list (list Document))
    (ps : list Page) (e : string) :
  hd None (driver s) = None →
  hd None (tl (driver s)) = Some e →
  batches (batch_sizes s) (pagesCollection s) = first :: more →
  more ≠ [] →
  Forall2 (λ d p, Decode d = inl p) first ps →
  ∃ dr,
    listPages s = (Ret (map Title ps, None), with_driver s dr) ∧
    listHandler templates r s
    = (Ret (), responded (with_driver s dr)
                 (rendering templates "list.html" (DNames (map Title ps)))).
Proof.
  intros Hd He Hb Hm Hps.
  assert (Find (hd None (driver s)) [] (batch_sizes s) (pagesCollection s)
          = inl {| batch := first; pending := more |}) as Hf.
  { rewrite Hd. unfold Find. by rewrite filter_selects_all, Hb. }
  destruct (listPages_end _ s (with_driver s (tl (tl (driver s)))) (map Title ps)
              (map Title ps) more Hf) as [dr Hl].
  - by rewrite (decode_titles_decodes first ps).
  - destruct more as [|docs more]; [done|]. simpl.
    unfold mbind, M_bind. rewrite getMore_run. simpl. by rewrite He.
  - exists dr. split; [done|]. by apply listHandler_run.
Qed.

Lemma list_truncated_by_failed_fetch_witness :
  ∃ dr,
    listPages batched_state = (Ret (["Bar"], None), with_driver batched_state dr) ∧
    listHandler sound_templates (mkRequest "/list" ∅) batched_state
    = (Ret (), responded (with_driver batched_state dr)
                 (rendering sound_templates "list.html" (DNames ["Bar"]))).
Proof.
  apply (list_truncated_by_failed_fetch sound_templates (mkRequest "/list" ∅)
           batched_state [doc_Bar] [[doc_Foo]] [ {| Title := "Bar"; Body := [] |} ]
           "connection reset");
    try reflexivity; [discriminate|by repeat constructor].
Defined.

(** On [/edit/<title>] with a valid title whose load succeeds, the edit
    template is run on the stored page, so the form shows the present
    text. *)
Theorem edit_existing_page (templates : string → TemplateData → error)
    (title : string) (r : Request) (s : State) (p : Page) :
  title_ok title = true →
  URL_Path r = "/edit/" +:+ title →
  (loadPage title s).1 = Ret (inl p) →
  makeHandler (editHandler templates) r s
  = (Ret (), responded (after_call s (pagesCollection s))
               (rendering templates "edit.html" (DPage p))).
Proof.
  intros Ht Hp Hl.
  rewrite (makeHandler_valid _ r "edit" title) by (done || by repeat constructor).
  by rewrite editHandler_run, Hl.
Qed.

Lemma edit_existing_page_witness :
  makeHandler (editHandler sound_templates) (mkRequest "/edit/Foo" ∅) stocked_state
  = (Ret (), responded (after_call stocked_state [doc_Bar; doc_Foo])
               [EvTemplate "edit.html"
                  (DPage {| Title := "Foo"; Body := bytes_of_string "old text" |})]).
Proof.
  apply (edit_existing_page sound_templates "Foo" (mkRequest "/edit/Foo" ∅) stocked_state);
    reflexivity.
Defined.

(** The view, edit and list handlers only read: whatever the path, the
    store and the outcome of the driver call, the collection after the
    request is the collection before it. *)
Theorem reading_handlers_keep_collection (templates : string → TemplateData → error)
    (r : Request) (s : State) :
  pagesCollection (makeHandler (viewHandler templates) r s).2 = pagesCollection s ∧
  pagesCollection (makeHandler (editHandler templates) r s).2 = pagesCollection s ∧
  pagesCollection (listHandler templates r s).2 = pagesCollection s.
Proof.
  repeat split.
  - unfold makeHandler. destruct (validPath_FindStringSubmatch _) as [m|]; [|done].
    destruct (m !! 2%nat) as [t|]; [|done]. rewrite viewHandler_run.
    by destruct (loadPage t s).1 as [[]| |].
  - unfold makeHandler. destruct (validPath_FindStringSubmatch _) as [m|]; [|done].
    destruct (m !! 2%nat) as [t|]; [|done]. by rewrite editHandler_run.
  - destruct (listPages_run s) as [dr [[names H]|[e H]]].
    + by rewrite (listHandler_run _ _ _ _ _ H).
    + by rewrite (listHandler_exit _ _ _ _ _ H).
Qed.

(** ** Requests in sequence *)

Lemma find_after_save (p : Page) (s : State) (d : Document) :
  hd None (driver s) = None →
  List.find (selects (title_filter (Title p))) (pagesCollection s) = Some d →
  List.find (selects (title_filter (Title p))) (pagesCollection (save p s).2)
  = Some {| _id := _id d; fields := page_fields p |}.
Proof.
  intros Hd Hf. rewrite save_run, Hd. simpl.
  destruct (replace_first_found _ (page_fields p) _ _ Hf) as (before & after & _ & Hb & ->).
  simpl. rewrite find_skip by done. simpl. by rewrite selects_page_fields.
Qed.

(** Saving a text for a title that has a document and then viewing the
    title shows that text: the save request answers with the redirect to
    the view path, and the view request that follows runs the view template
    on the page with the first value of the form field [body]. *)
Theorem save_then_view_shows_text (templates : string → TemplateData → error)
    (title v : string) (vs : list string) (r1 r2 : Request) (s : State) (d : Document) :
  title_ok title = true →
  URL_Path r1 = "/save/" +:+ title →
  URL_Path r2 = "/view/" +:+ title →
  Form r1 !! "body" = Some (v :: vs) →
  List.find (selects (title_filter title)) (pagesCollection s) = Some d →
  hd None (driver s) = None →
  hd None (tl (driver s)) = None →
  ∃ s1,
    makeHandler saveHandler r1 s = (Ret (), s1) ∧
    w s1 = w s ++ [EvRedirect ("/view/" +:+ title) StatusFound] ∧
    makeHandler (viewHandler templates) r2 s1
    = (Ret (), responded (after_call s1 (pagesCollection s1))
                 (rendering templates "view.html"
                    (DPage {| Title := title; Body := bytes_of_string v |}))).
Proof.
  intros Ht Hp1 Hp2 Hb Hf Hd1 Hd2.
  rewrite (makeHandler_valid _ r1 "save" title) by (done || by repeat constructor).
  rewrite saveHandler_run. unfold FormValue. rewrite Hb, Hd1. cbv zeta.
  set (p := {| Title := title; Body := bytes_of_string v |}).
  eexists. split; [done|]. split; [by rewrite save_run|].
  rewrite (makeHandler_valid _ r2 "view" title) by (done || by repeat constructor).
  rewrite viewHandler_run.
  rewrite (loadPage_found title _ {| _id := _id d; fields := page_fields p |} p).
  - done.
  - by rewrite save_run.
  - by apply (find_after_save p).
  - apply Decode_page_fields.
Qed.

Lemma save_then_view_shows_text_witness :
  ∃ s1,
    makeHandler saveHandler (mkRequest "/save/Foo" {[ "body" := ["new text"; "more"] ]})
      stocked_state = (Ret (), s1) ∧
    w s1 = w stocked_state ++ [EvRedirect "/view/Foo" StatusFound] ∧
    makeHandler (viewHandler sound_templates) (mkRequest "/view/Foo" ∅) s1
    = (Ret (), responded (after_call s1 (pagesCollection s1))
                 (rendering sound_templates "view.html"
                    (DPage {| Title := "Foo"; Body := bytes_of_string "new text" |}))).
Proof.
  apply (save_then_view_shows_text sound_templates "Foo" "new text" ["more"]
           (mkRequest "/save/Foo" {[ "body" := ["new text"; "more"] ]})
           (mkRequest "/view/Foo" ∅) stocked_state doc_Foo);
    try reflexivity.
Defined.

(** With one document per title, deleting a title and then viewing it leads
    to the edit form: the delete request answers with the redirect to
    [/list], and the view request that follows answers with the redirect to
    [/edit/<title>], whether or not its own driver call reaches the
    server. *)
Theorem delete_then_view_redirects_to_edit (templates : string → TemplateData → error)
    (title : string) (r1 r2 : Request) (s : State) :
  title_ok title = true →
  URL_Path r1 = "/delete/" +:+ title →
  URL_Path r2 = "/view/" +:+ title →
  unique_titles (pagesCollection s) →
  hd None (driver s) = None →
  ∃ s1,
    makeHandler deleteHandler r1 s = (Ret (), s1) ∧
    w s1 = w s ++ [EvRedirect "/list" StatusFound] ∧
    makeHandler (viewHandler templates) r2 s1
    = (Ret (), responded (after_call s1 (pagesCollection s1))
                 [EvRedirect ("/edit/" +:+ title) StatusFound]).
Proof.
  intros Ht Hp1 Hp2 Hu Hd.
  rewrite (makeHandler_valid _ r1 "delete" title) by (done || by repeat constructor).
  rewrite deleteHandler_run, Hd.
  eexists. split; [done|]. split; [by rewrite deletePage_run|].
  rewrite (makeHandler_valid _ r2 "view" title) by (done || by repeat constructor).
  rewrite viewHandler_run, loadPage_absent; [done|].
  rewrite deletePage_run, Hd. simpl. by apply find_delete_first.
Qed.

Lemma delete_then_view_redirects_to_edit_witness :
  ∃ s1,
    makeHandler deleteHandler (mkRequest "/delete/Foo" ∅) stocked_state = (Ret (), s1) ∧
    w s1 = w stocked_state ++ [EvRedirect "/list" StatusFound] ∧
    makeHandler (viewHandler sound_templates) (mkRequest "/view/Foo" ∅) s1
    = (Ret (), responded (after_call s1 (pagesCollection s1))
                 [EvRedirect "/edit/Foo" StatusFound]).
Proof.
  apply (delete_then_view_redirects_to_edit sound_templates "Foo"
           (mkRequest "/delete/Foo" ∅) (mkRequest "/view/Foo" ∅) stocked_state);
    try reflexivity.
  apply (bool_decide_unpack _). vm_compute. exact I.
Defined.

(** The save and delete requests keep one document per title, on every
    path, with every form and whatever the driver call meets. *)
Theorem writing_handlers_keep_unique_titles (r : Request) (s : State) :
  unique_titles (pagesCollection s) →
  unique_titles (pagesCollection (makeHandler saveHandler r s).2) ∧
  unique_titles (pagesCollection (makeHandler deleteHandler r s).2).
Proof.
  intros Hu. unfold makeHandler.
  destruct (validPath_FindStringSubmatch _) as [m|]; [|done].
  destruct (m !! 2%nat) as [t|]; [|done]. split.
  - rewrite saveHandler_run. simpl. by apply save_unique_titles.
  - rewrite deleteHandler_run. simpl. by apply deletePage_unique_titles.
Qed.

Lemma writing_handlers_keep_unique_titles_witness :
  unique_titles
    (pagesCollection
       (makeHandler saveHandler (mkRequest "/save/Foo" {[ "body" := ["new text"] ]})
          stocked_state).2).
Proof.
  refine (proj1 (writing_handlers_keep_unique_titles _ stocked_state _)).
  apply (bool_decide_unpack _). vm_compute. exact I.
Defined.

(** ** What every request does *)

Lemma makeHandler_cases (fn : Request → string → M unit) (r : Request) (s : State) :
  makeHandler fn r s = (Ret (), responded s [EvNotFound]) ∨
  ∃ t, makeHandler fn r s = fn r t s.
Proof.
  unfold makeHandler.
  destruct (validPath_FindStringSubmatch (URL_Path r)) as [m|] eqn:Hm; [|by left].
  apply validPath_matches in Hm as (a & t & _ & _ & _ & ->). right. by exists t.
Qed.

(** The four title routes always answer: whatever the path, the form, the
    store and the outcome of the driver call, the handler returns (it
    neither ends the process nor panics) and has written something to the
    response. *)
Theorem title_routes_always_answer (templates : string → TemplateData → error)
    (r : Request) (s : State) :
  Forall (λ h : Request → M unit,
            ∃ s' evs, h r s = (Ret (), s') ∧ w s' = w s ++ evs ∧ evs ≠ [])
    [makeHandler (viewHandler templates); makeHandler (editHandler templates);
     makeHandler saveHandler; makeHandler deleteHandler].
Proof.
  repeat apply Forall_cons_2; [..|apply Forall_nil_2].
  - destruct (makeHandler_cases (viewHandler templates) r s) as [->|[t ->]];
      [by eexists _, _|].
    rewrite viewHandler_run.
    destruct (loadPage t s).1 as [[p|e]|e|e]; by eexists _, _.
  - destruct (makeHandler_cases (editHandler templates) r s) as [->|[t ->]];
      [by eexists _, _|].
    rewrite editHandler_run. by eexists _, _.
  - destruct (makeHandler_cases saveHandler r s) as [->|[t ->]]; [by eexists _, _|].
    rewrite saveHandler_run. cbv zeta. eexists _, _. split; [done|].
    rewrite save_run. split; [done|]. by destruct (hd None (driver s)).
  - destruct (makeHandler_cases deleteHandler r s) as [->|[t ->]]; [by eexists _, _|].
    rewrite deleteHandler_run. eexists _, _. split; [done|].
    rewrite deletePage_run. split; [done|]. by destruct (hd None (driver s)).
Qed.

(** A request on one of the four title routes makes one driver call when
    its path is well formed and none when it is not. *)
Theorem one_driver_call_per_request (templates : string → TemplateData → error)
    (r : Request) (s : State) :
  let calls := match validPath_FindStringSubmatch (URL_Path r) with
               | Some _ => tl (driver s)
               | None => driver s
               end in
  driver (makeHandler (viewHandler templates) r s).2 = calls ∧
  driver (makeHandler (editHandler templates) r s).2 = calls ∧
  driver (makeHandler saveHandler r s).2 = calls ∧
  driver (makeHandler deleteHandler r s).2 = calls.
Proof.
  unfold makeHandler.
  destruct (validPath_FindStringSubmatch (URL_Path r)) as [m|] eqn:Hm; [|done].
  apply validPath_matches in Hm as (a & t & _ & _ & _ & ->). simpl.
  repeat split.
  - rewrite viewHandler_run. by destruct (loadPage t s).1 as [[]| |].
  - by rewrite editHandler_run.
  - rewrite saveHandler_run. simpl. by rewrite save_run.
  - rewrite deleteHandler_run. simpl. by rewrite deletePage_run.
Qed.
